(** * Procedural rose geometry: merge engine, petal layout, petal envelope,
      thorn placement and thorn frames.

    Shallow embedding of the geometry helpers of the rose component
    ([mergeGeometries], [createPetalGeometry], the petal loop of
    [FlowerHead] and the thorn loop of [Stem]).

    Conventions.
    - A JavaScript typed array is a [list]; [TypedArray.prototype.set]
      throws a [RangeError] when the source does not fit, an indexed store
      outside the array is silently dropped (stdpp's list insert).
    - Reading a property of [undefined] throws a [TypeError].
    - The elements of a [Float32Array] are kept abstract in the merge
      engine, which only copies them and writes the constants 0 and 1.
    - [Uint32Array] elements are integers with the wrap-around modulo 2^32
      written out.
    - In the numeric sections a JavaScript number is idealised as a real
      number (no rounding, no NaN, no infinities). *)

From Stdlib Require Import ZArith List Lia Reals Lra.
From stdpp Require Import base list.

Set Default Proof Using "Type".

(** ** Abrupt completions *)

Inductive JsError : Type := TypeError | RangeError.

Inductive completion (A : Type) : Type :=
| Normal (a : A)
| Throw (e : JsError).
Arguments Normal {A} a.
Arguments Throw {A} e.

Definition bind {A B : Type} (c : completion A) (k : A -> completion B)
  : completion B :=
  match c with
  | Normal a => k a
  | Throw e => Throw e
  end.

Notation "'let!' x ':=' c 'in' k" := (bind c (fun x => k))
  (at level 10, x name, c at level 100, k at level 200).

(** Reading a property through a possibly [undefined] reference. *)
Definition deref {A : Type} (o : option A) : completion A :=
  match o with
  | Some a => Normal a
  | None => Throw TypeError
  end.

(** Monadic left fold: a [for ... of] loop whose body may throw. *)
Fixpoint forOf {S G : Type} (body : S -> G -> completion S)
  (gs : list G) (st : S) : completion S :=
  match gs with
  | [] => Normal st
  | g :: rest => let! st' := body st g in forOf body rest st'
  end.

(** ** Typed arrays and buffer attributes (three.js interface) *)

(** [target.set(source, offset)]. *)
Definition typedArray_set {A : Type} (target source : list A) (offset : nat)
  : completion (list A) :=
  if decide (offset + length source <= length target)
  then Normal (take offset target ++ source
                 ++ drop (offset + length source) target)
  else Throw RangeError.

(** The [len] elements of [l] from position [start] on. *)
Definition subarray {A : Type} (l : list A) (start len : nat) : list A :=
  take len (drop start l).

(** Conversion of the stored number to an element of a [Uint32Array];
    [None] stands for [NaN] (the sum [undefined + n]). *)
Definition toUint32 (v : option Z) : Z :=
  match v with
  | Some x => (x mod 2 ^ 32)%Z
  | None => 0%Z
  end.

Record BufferAttribute (A : Type) : Type := mkAttr {
  array : list A;
  itemSize : nat;
  count : nat
}.
Arguments mkAttr {A} array itemSize count.
Arguments array {A} b.
Arguments itemSize {A} b.
Arguments count {A} b.

(** [new THREE.BufferAttribute(array, itemSize)]: the constructor sets
    [count = array.length / itemSize]. *)
Definition newBufferAttribute {A : Type} (arr : list A) (size : nat)
  : BufferAttribute A :=
  mkAttr arr size (length arr / size).

(** [attr.getX(i)] reads [array[i * itemSize]]. *)
Definition getX {A : Type} (attr : BufferAttribute A) (i : nat) : option A :=
  array attr !! (i * itemSize attr).

Module Merge.
Section Engine.

(** Element type of the [Float32Array]s and its constants 0 and 1.0. *)
Context {F : Type}.
Variables (f0 f1 : F).

Record BufferGeometry : Type := mkGeometry {
  position : option (BufferAttribute F);
  normal : option (BufferAttribute F);
  uv : option (BufferAttribute F);
  index : option (BufferAttribute Z)
}.

(** [new THREE.BufferGeometry()]: no attributes, no index. *)
Definition emptyGeometry : BufferGeometry :=
  mkGeometry None None None None.

(** First loop of [mergeGeometries]: the two totals. *)
Fixpoint countTotals (geometries : list BufferGeometry)
  (totalVertices totalIndices : nat) : completion (nat * nat) :=
  match geometries with
  | [] => Normal (totalVertices, totalIndices)
  | geo :: rest =>
      let! pos := deref (position geo) in
      let totalVertices' := totalVertices + count pos in
      let totalIndices' :=
        match index geo with
        | Some idx => totalIndices + count idx
        | None => totalIndices + count pos
        end in
      countTotals rest totalVertices' totalIndices'
  end.

Record MergeState : Type := mkState {
  positionArr : list F;
  normalArr : list F;
  uvArr : list F;
  indicesArr : list Z;
  vertexOffset : nat;
  indexOffset : nat
}.

(** [for (k = 0; k < n; k++) normalArr[(vertexOffset+k)*3 + 1] = 1.0]. *)
Definition fillDefaultNormals (arr : list F) (vOff n : nat) : list F :=
  fold_left (fun a k => <[(vOff + k) * 3 + 1 := f1]> a) (seq 0 n) arr.

(** [for (i = 0; i < idx.count; i++)
      indicesArr[indexOffset + i] = idx.getX(i) + vertexOffset]. *)
Definition copyIndices (arr : list Z) (iOff : nat)
  (idx : BufferAttribute Z) (vOff : nat) : list Z :=
  fold_left
    (fun a i =>
       <[iOff + i :=
           toUint32 (option_map (fun x => (x + Z.of_nat vOff)%Z)
                       (getX idx i))]> a)
    (seq 0 (count idx)) arr.

(** [for (i = 0; i < pos.count; i++)
      indicesArr[indexOffset + i] = i + vertexOffset]. *)
Definition sequentialIndices (arr : list Z) (iOff n vOff : nat) : list Z :=
  fold_left
    (fun a i =>
       <[iOff + i := toUint32 (Some (Z.of_nat i + Z.of_nat vOff)%Z)]> a)
    (seq 0 n) arr.

(** Body of the second loop. *)
Definition mergeOne (st : MergeState) (geo : BufferGeometry)
  : completion MergeState :=
  let pos := position geo in
  let norm := normal geo in
  let uvs := uv geo in
  let idx := index geo in
  let! positionArr' :=
    match pos with
    | Some p => typedArray_set (positionArr st) (array p)
                  (vertexOffset st * 3)
    | None => Normal (positionArr st)
    end in
  let! normalArr' :=
    match norm with
    | Some n => typedArray_set (normalArr st) (array n)
                  (vertexOffset st * 3)
    | None =>
        let! p := deref pos in
        Normal (fillDefaultNormals (normalArr st) (vertexOffset st)
                  (count p))
    end in
  let! uvArr' :=
    match uvs with
    | Some u => typedArray_set (uvArr st) (array u) (vertexOffset st * 2)
    | None => Normal (uvArr st)
    end in
  let! indexed :=
    match idx with
    | Some ix =>
        Normal (copyIndices (indicesArr st) (indexOffset st) ix
                  (vertexOffset st),
                indexOffset st + count ix)
    | None =>
        let! p := deref pos in
        Normal (sequentialIndices (indicesArr st) (indexOffset st)
                  (count p) (vertexOffset st),
                indexOffset st + count p)
    end in
  let! p := deref pos in
  Normal (mkState positionArr' normalArr' uvArr' (fst indexed)
            (vertexOffset st + count p) (snd indexed)).

Definition mergeGeometries (geometries : list BufferGeometry)
  : completion BufferGeometry :=
  match geometries with
  | [] => Normal emptyGeometry
  | _ =>
      let! totals := countTotals geometries 0 0 in
      let totalVertices := fst totals in
      let totalIndices := snd totals in
      let st0 :=
        mkState (replicate (totalVertices * 3) f0)
                (replicate (totalVertices * 3) f0)
                (replicate (totalVertices * 2) f0)
                (replicate totalIndices 0%Z)
                0 0 in
      let! st := forOf mergeOne geometries st0 in
      Normal (mkGeometry
                (Some (newBufferAttribute (positionArr st) 3))
                (Some (newBufferAttribute (normalArr st) 3))
                (Some (newBufferAttribute (uvArr st) 2))
                (Some (newBufferAttribute (indicesArr st) 1)))
  end.

(** *** Observers of a mesh buffer *)

(** Number of vertices: the [count] of the position attribute, none when
    the geometry has no position attribute. *)
Definition vertexCount (g : BufferGeometry) : nat :=
  match position g with
  | Some p => count p
  | None => 0
  end.

Definition attrArray {A : Type} (o : option (BufferAttribute A)) : list A :=
  match o with
  | Some a => array a
  | None => []
  end.

Definition positions (g : BufferGeometry) : list F := attrArray (position g).
Definition normals (g : BufferGeometry) : list F := attrArray (normal g).
Definition uvs (g : BufferGeometry) : list F := attrArray (uv g).
Definition indices (g : BufferGeometry) : list Z := attrArray (index g).

(** *** The Mesh Buffer data model and the merged arrays it determines *)

(** A Mesh Buffer: a position attribute holding [count] whole vertices,
    normals and texture coordinates (when present) for exactly these
    vertices, and an index attribute (when present) of item size 1 whose
    [count] is the length of its array. *)
Definition meshBuffer (g : BufferGeometry) : Prop :=
  match position g with
  | None => False
  | Some p =>
      length (array p) = count p * 3
      /\ match normal g with
         | Some n => length (array n) = count p * 3
         | None => True
         end
      /\ match uv g with
         | Some u => length (array u) = count p * 2
         | None => True
         end
      /\ match index g with
         | Some ix => itemSize ix = 1 /\ count ix = length (array ix)
         | None => True
         end
  end.

(** Data-model invariant: every index names a vertex of its own buffer. *)
Definition indicesInRange (g : BufferGeometry) : Prop :=
  Forall (fun i => (0 <= i < Z.of_nat (vertexCount g))%Z) (indices g).

(** Number of triangle corners an input contributes. *)
Definition indexCountOf (g : BufferGeometry) : nat :=
  match index g with
  | Some ix => count ix
  | None => vertexCount g
  end.

(** The corners of an input group into whole triangles. *)
Definition triangleList (g : BufferGeometry) : Prop :=
  match index g with
  | Some ix => count ix mod 3 = 0
  | None => vertexCount g mod 3 = 0
  end.

Definition totalVertexCount (gs : list BufferGeometry) : nat :=
  sum_list_with vertexCount gs.

Definition totalIndexCount (gs : list BufferGeometry) : nat :=
  sum_list_with indexCountOf gs.

(** [n] copies of the up vector (0,1,0). *)
Definition defaultNormals (n : nat) : list F :=
  concat (replicate n [f0; f1; f0]).

Definition normalsOf (g : BufferGeometry) : list F :=
  match normal g with
  | Some n => array n
  | None => defaultNormals (vertexCount g)
  end.

Definition uvsOf (g : BufferGeometry) : list F :=
  match uv g with
  | Some u => array u
  | None => replicate (vertexCount g * 2) f0
  end.

(** An index moved past [vOff] vertices, as a [Uint32Array] keeps it. *)
Definition shiftIndex (vOff : nat) (x : Z) : Z :=
  ((x + Z.of_nat vOff) mod 2 ^ 32)%Z.

(** The index run of one input, shifted by the vertices before it. *)
Definition indicesOf (vOff : nat) (g : BufferGeometry) : list Z :=
  match index g with
  | Some ix => map (shiftIndex vOff) (array ix)
  | None =>
      map (fun i => shiftIndex vOff (Z.of_nat i)) (seq 0 (vertexCount g))
  end.

Fixpoint mergedIndices (vOff : nat) (gs : list BufferGeometry) : list Z :=
  match gs with
  | [] => []
  | g :: rest => indicesOf vOff g ++ mergedIndices (vOff + vertexCount g) rest
  end.

(** The buffer the merge is specified to build from a non-empty list. *)
Definition mergedBuffer (gs : list BufferGeometry) : BufferGeometry :=
  mkGeometry
    (Some (newBufferAttribute (flat_map positions gs) 3))
    (Some (newBufferAttribute (flat_map normalsOf gs) 3))
    (Some (newBufferAttribute (flat_map uvsOf gs) 2))
    (Some (newBufferAttribute (mergedIndices 0 gs) 1)).

(** State of the second loop once the inputs [pre] are copied, with
    room left for [rv] vertices and [ri] indices. *)
Definition stateAfter (pre : list BufferGeometry) (rv ri : nat)
  : MergeState :=
  mkState
    (flat_map positions pre ++ replicate (rv * 3) f0)
    (flat_map normalsOf pre ++ replicate (rv * 3) f0)
    (flat_map uvsOf pre ++ replicate (rv * 2) f0)
    (mergedIndices 0 pre ++ replicate ri 0%Z)
    (totalVertexCount pre) (totalIndexCount pre).

End Engine.
End Merge.

(** ** Sample inputs (integral coordinates) *)

Module Examples.
Import Merge.

(** A unit square: 4 vertices, two indexed triangles, no normals, no
    texture coordinates. *)
Definition quad : @BufferGeometry Z :=
  mkGeometry
    (Some (newBufferAttribute
             [0; 0; 0;  1; 0; 0;  1; 1; 0;  0; 1; 0]%Z 3))
    None None
    (Some (newBufferAttribute [0; 1; 2;  0; 2; 3]%Z 1)).

(** A single triangle without index buffer, with normals and texture
    coordinates. *)
Definition triangle : @BufferGeometry Z :=
  mkGeometry
    (Some (newBufferAttribute [0; 0; 5;  1; 0; 5;  0; 1; 5]%Z 3))
    (Some (newBufferAttribute [0; 0; 1;  0; 0; 1;  0; 0; 1]%Z 3))
    (Some (newBufferAttribute [0; 0;  1; 0;  0; 1]%Z 2))
    None.

(** Two loose vertices without index buffer: not a whole triangle. *)
Definition segment : @BufferGeometry Z :=
  mkGeometry (Some (newBufferAttribute [0; 0; 0;  1; 0; 0]%Z 3))
    None None None.

(** A geometry that was never given a position attribute. *)
Definition bare : @BufferGeometry Z :=
  mkGeometry None None (Some (newBufferAttribute [0; 0]%Z 2)) None.

(** One vertex that carries the normals of two: not a mesh buffer. *)
Definition lopsided : @BufferGeometry Z :=
  mkGeometry (Some (newBufferAttribute [0; 0; 0]%Z 3))
    (Some (newBufferAttribute [0; 0; 1;  0; 0; 1]%Z 3))
    None None.

(** One vertex and an index that names no vertex: not a mesh buffer. *)
Definition stray : @BufferGeometry Z :=
  mkGeometry (Some (newBufferAttribute [0; 0; 0]%Z 3)) None None
    (Some (newBufferAttribute [5; 0; 0]%Z 1)).

(** Checking the data-model invariants of a list of sample inputs. *)
Ltac mesh_buffers :=
  repeat (apply Forall_cons_2 || apply Forall_nil_2);
  vm_compute; repeat split.

Ltac in_range :=
  repeat (apply Forall_cons_2 || apply Forall_nil_2);
  unfold indicesInRange; cbn;
  repeat (apply Forall_cons_2 || apply Forall_nil_2); lia.

End Examples.

(** ** Petal layout of [FlowerHead] *)

Module FlowerHead.
Local Open Scope R_scope.

Definition goldenAngle : R := 137.5 * (PI / 180).
Definition totalPetals : nat := 22.

Record PetalConfig : Type := mkConfig {
  radius : R;
  y : R;
  scale : R;
  rotX : R
}.

(** The four tiers of the petal schedule. *)
Definition petalConfig (i : nat) : PetalConfig :=
  if (i <? 5)%nat then
    mkConfig 0.05 (0.6 + INR i * 0.03) 0.35 0.1
  else if (i <? 10)%nat then
    let t := (INR i - 5) / 5 in
    mkConfig (0.15 + t * 0.08) (0.65 - t * 0.1) (0.5 + t * 0.15) 0.05
  else if (i <? 16)%nat then
    let t := (INR i - 10) / 6 in
    mkConfig (0.25 + t * 0.15) (0.55 - t * 0.08) (0.7 + t * 0.15) 0.1
  else
    let t := (INR i - 16) / 6 in
    mkConfig (0.45 + t * 0.05) (0.45 - t * 0.05) 0.95 0.2.

Record PetalPlacement : Type := mkPlacement {
  theta : R;
  config : PetalConfig;
  x : R;
  z : R;
  rotY : R
}.

(** One round of the petal loop. *)
Definition petalPlacement (i : nat) : PetalPlacement :=
  let theta := INR i * goldenAngle in
  let config := petalConfig i in
  let x := cos theta * radius config in
  let z := sin theta * radius config in
  let rotY := - theta - PI / 2 in
  mkPlacement theta config x z rotY.

(** [for (i = 0; i < totalPetals; i++)]. *)
Definition petalPlacements : list PetalPlacement :=
  map petalPlacement (seq 0 totalPetals).

(** An angle given in degrees, in radians. *)
Definition degrees (d : R) : R := d * (PI / 180).

End FlowerHead.

(** ** Width envelope of [createPetalGeometry] *)

Module Petal.
Local Open Scope R_scope.

(** [Math.pow(x, y)] for a positive exponent [y] and a base that is not
    negative: 0 at base 0, the real power of a positive base.  (The source
    clamps the base with [Math.max(0, _)] before every such call.) *)
Definition Math_pow (x y : R) : R :=
  if Rle_dec x 0 then 0 else Rpower x y.

(** [v = Math.max(0, Math.min(1, vertex.y + 0.5))]. *)
Definition longitudinal (vertex_y : R) : R :=
  Rmax 0 (Rmin 1 (vertex_y + 0.5)).

(** The three assignments to [shapeWidth]. *)
Definition shapeWidth (v : R) : R :=
  let shapeWidth := sin (v * PI * 0.85) in
  let shapeWidth := Math_pow (Rmax 0 shapeWidth) 0.4 in
  shapeWidth * Rmin 1.0 (v * 3.5).

(** [vertex.x *= shapeWidth * 1.5]. *)
Definition lateral (vertex_x vertex_y : R) : R :=
  vertex_x * (shapeWidth (longitudinal vertex_y) * 1.5).

(** The envelope tends to 0 when its argument tends to 1 from the left. *)
Definition vanishesTowardsTip (w : R -> R) : Prop :=
  forall eps : R, 0 < eps ->
    exists delta : R, 0 < delta /\
      forall v : R, 1 - delta < v <= 1 -> w v < eps.

End Petal.

(** ** Thorn placement of [Stem] *)

Module Stem.
Local Open Scope R_scope.

(** *** three.js vectors and quaternions *)

Record Vector3 : Type := vec3 { vx : R; vy : R; vz : R }.
Record Quaternion : Type := quat { qx : R; qy : R; qz : R; qw : R }.

Definition dot (a b : Vector3) : R :=
  vx a * vx b + vy a * vy b + vz a * vz b.

Definition lengthSq (a : Vector3) : R :=
  vx a * vx a + vy a * vy a + vz a * vz a.

Definition length (a : Vector3) : R := sqrt (lengthSq a).

Definition crossVectors (a b : Vector3) : Vector3 :=
  vec3 (vy a * vz b - vz a * vy b)
       (vz a * vx b - vx a * vz b)
       (vx a * vy b - vy a * vx b).

Definition multiplyScalar (a : Vector3) (s : R) : Vector3 :=
  vec3 (vx a * s) (vy a * s) (vz a * s).

Definition divideScalar (a : Vector3) (s : R) : Vector3 :=
  multiplyScalar a (1 / s).

(** [divideScalar(length() || 1)]. *)
Definition normalize (a : Vector3) : Vector3 :=
  divideScalar a (if Req_dec_T (length a) 0 then 1 else length a).

Definition negate (a : Vector3) : Vector3 :=
  vec3 (- vx a) (- vy a) (- vz a).

Definition add (a b : Vector3) : Vector3 :=
  vec3 (vx a + vx b) (vy a + vy b) (vz a + vz b).

(** [setFromAxisAngle]: the axis is assumed to be normalised. *)
Definition setFromAxisAngle (axis : Vector3) (angle : R) : Quaternion :=
  let halfAngle := angle / 2 in
  let s := sin halfAngle in
  quat (vx axis * s) (vy axis * s) (vz axis * s) (cos halfAngle).

(** [applyQuaternion]: [v + q.w * t + cross(q.xyz, t)] with
    [t = 2 * cross(q.xyz, v)]. *)
Definition applyQuaternion (v : Vector3) (q : Quaternion) : Vector3 :=
  let tx := 2 * (qy q * vz v - qz q * vy v) in
  let ty := 2 * (qz q * vx v - qx q * vz v) in
  let tz := 2 * (qx q * vy v - qy q * vx v) in
  vec3 (vx v + qw q * tx + qy q * tz - qz q * ty)
       (vy v + qw q * ty + qz q * tx - qx q * tz)
       (vz v + qw q * tz + qx q * ty - qy q * tx).

Definition applyAxisAngle (v axis : Vector3) (angle : R) : Vector3 :=
  applyQuaternion v (setFromAxisAngle axis angle).

(** *** The thorn loop *)

Definition thornCount : nat := 20.
Definition stemRadius : R := 0.05.

(** [t = Math.max(0.12, Math.min(0.99, tBase + tJitter))]. *)
Definition thornParameter (i : nat) (tJitter : R) : R :=
  let tBase := 0.15 + (INR i / INR thornCount) * 0.83 in
  Rmax 0.12 (Rmin 0.99 (tBase + tJitter)).

(** [tJitter = (Math.random() - 0.5) * 0.04]. *)
Definition jitterOf (random : R) : R := (random - 0.5) * 0.04.

(** [curve.getTangent(t).normalize()], replaced by [(0,-1,0)] when its
    squared length is below 0.1. *)
Definition sampleTangent (rawTangent : Vector3) : Vector3 :=
  let tangent := normalize rawTangent in
  if Rlt_dec (lengthSq tangent) 0.1 then vec3 0 (-1) 0 else tangent.

Definition worldUp : Vector3 := vec3 0 1 0.
Definition secondaryAxis : Vector3 := vec3 0 0 1.

(** [up = (0,1,0)], replaced by [(0,0,1)] when [|tangent.y| > 0.9]. *)
Definition referenceUp (tangent : Vector3) : Vector3 :=
  if Rlt_dec 0.9 (Rabs (vy tangent)) then secondaryAxis else worldUp.

Record Frame : Type := mkFrame {
  xAxis : Vector3;
  yAxis : Vector3;
  zAxis : Vector3
}.

(** The radial direction of a thorn around the stem. *)
Definition thornNormal (tangent : Vector3) (angle : R) : Vector3 :=
  let up := referenceUp tangent in
  let binormal := normalize (crossVectors tangent up) in
  normalize (applyAxisAngle binormal tangent angle).

(** The basis handed to [makeBasis]. *)
Definition thornFrame (tangent : Vector3) (angle : R) : Frame :=
  let normal := thornNormal tangent angle in
  let yAxis := normal in
  let zAxisApprox := negate tangent in
  let xAxis := normalize (crossVectors yAxis zAxisApprox) in
  let zAxis := normalize (crossVectors xAxis yAxis) in
  mkFrame xAxis yAxis zAxis.

(** [thornPos = point + normal * (stemRadius - 0.005)]. *)
Definition thornPos (point tangent : Vector3) (angle : R) : Vector3 :=
  add point (multiplyScalar (thornNormal tangent angle)
               (stemRadius - 0.005)).

Definition orthonormal (f : Frame) : Prop :=
  dot (xAxis f) (yAxis f) = 0
  /\ dot (yAxis f) (zAxis f) = 0
  /\ dot (xAxis f) (zAxis f) = 0
  /\ length (xAxis f) = 1
  /\ length (yAxis f) = 1
  /\ length (zAxis f) = 1.

End Stem.

(** ** Hand-written merge of the two antennae ([Shards]) *)

Module Shards.
Import Merge.
Section Antenna.

Context {F : Type}.
Variable f0 : F.

(** The body of [antennaGeometry] after the two tubes are built: the
    position and normal arrays of [geo1] and [geo2] are laid side by side
    in fresh arrays; no other attribute and no index is set. *)
Definition mergeAntennae (geo1 geo2 : @BufferGeometry F)
  : completion (@BufferGeometry F) :=
  let! p1 := deref (position geo1) in
  let pos1 := array p1 in
  let! p2 := deref (position geo2) in
  let pos2 := array p2 in
  let newPos := replicate (length pos1 + length pos2) f0 in
  let! newPos1 := typedArray_set newPos pos1 0 in
  let! newPos2 := typedArray_set newPos1 pos2 (length pos1) in
  let! n1 := deref (normal geo1) in
  let norm1 := array n1 in
  let! n2 := deref (normal geo2) in
  let norm2 := array n2 in
  let newNorm := replicate (length norm1 + length norm2) f0 in
  let! newNorm1 := typedArray_set newNorm norm1 0 in
  let! newNorm2 := typedArray_set newNorm1 norm2 (length norm1) in
  Normal (mkGeometry (Some (newBufferAttribute newPos2 3))
            (Some (newBufferAttribute newNorm2 3)) None None).

End Antenna.

(** The triangle corners a geometry draws: its index array, or the
    vertices in order when it has none. *)
Definition cornersOf {F : Type} (g : @BufferGeometry F) : list Z :=
  match index g with
  | Some ix => array ix
  | None => map Z.of_nat (seq 0 (vertexCount g))
  end.

End Shards.

(** ** Deformation of the thorn cone ([createThornGeometry]) *)

Module ThornGeometry.
Import Stem.
Local Open Scope R_scope.

Definition height : R := 0.35.
Definition baseRadius : R := 0.08.

(** One round of the vertex loop: the cone, already moved up by half its
    height, is bent backwards by the square of the height fraction and
    squeezed sideways. *)
Definition thornVertex (vertex : Vector3) : Vector3 :=
  let h := vy vertex / height in
  let bend := h ^ 2 * 0.12 in
  vec3 (vx vertex * 0.8) (vy vertex) (vz vertex - bend).

End ThornGeometry.

(** ** Sepals ([createSepalGeometry] and [Sepals]) *)

Module Sepal.
Import Stem Petal.
Local Open Scope R_scope.

Definition width : R := 0.5.
Definition length : R := 1.1.

(** One round of the vertex loop of [createSepalGeometry]. *)
Definition sepalVertex (vertex : Vector3) : Vector3 :=
  let t := vy vertex / length in
  let curve := sin (t * PI * 0.8) * 0.15 in
  let z1 := vz vertex + curve in
  let z2 := z1 + Math_pow (Rabs (vx vertex / width)) 2.2 * 0.12 in
  vec3 (vx vertex) (vy vertex) z2.

(** three.js [multiplyQuaternions(a, b)]. *)
Definition multiplyQuaternions (a b : Quaternion) : Quaternion :=
  quat (qx a * qw b + qw a * qx b + qy a * qz b - qz a * qy b)
       (qy a * qw b + qw a * qy b + qz a * qx b - qx a * qz b)
       (qz a * qw b + qw a * qz b + qx a * qy b - qy a * qx b)
       (qw a * qw b - qx a * qx b - qy a * qy b - qz a * qz b).

(** [new Quaternion()]. *)
Definition identityQuaternion : Quaternion := quat 0 0 0 1.

Definition count : nat := 6.
Definition attachY : R := 1.35.
Definition attachRadius : R := 0.07.
Definition tilt : R := 1.05.

Definition sepalAngle (i : nat) : R := (INR i / INR count) * PI * 2.

(** Translation part handed to [mat.compose]. *)
Definition sepalAttach (i : nat) : Vector3 :=
  let angle := sepalAngle i in
  vec3 (sin angle * attachRadius) attachY (cos angle * attachRadius).

(** [q.multiply(qRot).multiply(qTilt)]. *)
Definition sepalOrientation (i : nat) : Quaternion :=
  let angle := sepalAngle i in
  let qRot := setFromAxisAngle (vec3 0 1 0) angle in
  let qTilt := setFromAxisAngle (vec3 1 0 0) tilt in
  multiplyQuaternions (multiplyQuaternions identityQuaternion qRot) qTilt.

Definition quaternionLengthSq (q : Quaternion) : R :=
  qx q * qx q + qy q * qy q + qz q * qz q + qw q * qw q.

End Sepal.

(** ** Leaf blade ([createSolidLeafGeometry]) *)

Module Leaf.
Import Stem Petal.
Local Open Scope R_scope.

Definition length : R := 1.4.
Definition targetMaxWidth : R := 0.8.
Definition midribThickness : R := 0.05.
Definition edgeThickness : R := 0.002.

(** [v = Math.max(0, Math.min(1, vertex.y + 0.5))]. *)
Definition longitudinal (vertex_y : R) : R :=
  Rmax 0 (Rmin 1 (vertex_y + 0.5)).

(** The outline: a sine lobe, tapered to the tip above v = 0.7. *)
Definition shapeWidth (v : R) : R :=
  let shapeWidth := sin (Math_pow v 0.75 * PI) in
  if Rlt_dec 0.7 v then shapeWidth * (1.0 - (v - 0.7) / 0.3)
  else shapeWidth.

(** Outline plus the 16 serration teeth; [phase % 1] of a number that is
    not negative is its fractional part. *)
Definition halfWidth (v : R) : R :=
  let serrationCount := 16 in
  let phase := v * serrationCount in
  let toothLocal := frac_part phase in
  let serrationShape := Math_pow toothLocal 0.8 in
  let serrationAmp := 0.04 * sin (v * PI) in
  shapeWidth v * targetMaxWidth * 0.5 + serrationShape * serrationAmp.

(** [halfWidth > 0.001 ? Math.abs(vertex.x) / halfWidth : 0], with
    [vertex.x] already scaled. *)
Definition distRatio (x halfWidth : R) : R :=
  if Rlt_dec 0.001 halfWidth then Rabs x / halfWidth else 0.

Definition currentThickness (distRatio : R) : R :=
  let tProfile := 1.0 - Math_pow distRatio 2.5 in
  edgeThickness + (midribThickness - edgeThickness) * tProfile.

(** One round of the vertex loop. *)
Definition leafVertex (vertex : Vector3) : Vector3 :=
  let v := longitudinal (vy vertex) in
  let halfWidth := halfWidth v in
  let x := vx vertex * (halfWidth * 2.0) in
  let distRatio := distRatio x halfWidth in
  let z := vz vertex * currentThickness distRatio in
  let absX := Rabs x in
  let z := z + absX * 0.6 in
  let z :=
    if Rlt_dec distRatio 0.15 then
      let t := distRatio / 0.15 in
      let dip := (cos (t * PI) + 1) * 0.5 in
      z - dip * 0.015
    else z in
  let z := z - sin (v * PI * 0.85) * 0.25 in
  let veinFreq := 12 in
  let veinPhase := v * veinFreq - distRatio * 3.5 in
  let puff := sin (veinPhase * PI * 2) in
  let puffMask := sin (distRatio * PI) in
  let z := z + puff * puffMask * 0.01 in
  let z :=
    if Rlt_dec 0.8 v then
      let tipT := (v - 0.8) / 0.2 in
      z - tipT ^ 3 * 0.15
    else z in
  vec3 x (v * length) z.

End Leaf.

(** ** The whole vertex loop of [createPetalGeometry] *)

Module PetalGeometry.
Import Stem Petal.
Local Open Scope R_scope.

(** One round of the vertex loop for the petal number [index]. *)
Definition petalVertex (index : nat) (vertex : Vector3) : Vector3 :=
  let seed := INR index * 13.5 in
  let u := vx vertex + 0.5 in
  let v := Petal.longitudinal (vy vertex) in
  let x := vx vertex * (Petal.shapeWidth v * 1.5) in
  let undulation := sin (u * 3 + seed) * cos (v * 2 + seed) * 0.04 in
  let z := vz vertex + undulation in
  let edgeDist := Rabs (u - 0.5) * 2 in
  let topDist := v in
  let waveFreq := 2.0 + INR (index mod 3) in
  let waveAmp := 0.08 * topDist * Math_pow (Rmax 0 edgeDist) 1.5 in
  let waveZ := sin (u * PI * waveFreq + seed) * waveAmp in
  let waveY := cos (u * PI * waveFreq + seed) * waveAmp * 0.15 in
  let z := z + waveZ in
  let y := vy vertex + waveY in
  let cupAmount := if (12 <? index)%nat then 0.35 else 0.6 in
  let distFromCenter := Rabs x in
  let z := z + Math_pow (Rmax 0 distFromCenter) 2.2 * cupAmount * 2.0 in
  let zy :=
    if (index <? 6)%nat then
      (z + sin (v * PI * 0.5) * 0.4, y)
    else if (index <? 12)%nat then
      (z - Math_pow (Rmax 0 v) 3.0 * 0.25, y)
    else
      (z - Math_pow (Rmax 0 v) 2.5 * 0.5,
       y - Math_pow (Rmax 0 (Rabs (u - 0.5))) 3 * 0.5) in
  vec3 x (snd zy + 0.5) (fst zy).

End PetalGeometry.

(** ** Floating shards and butterflies ([Shards], [Shard], [Butterfly]) *)

Module ShardField.
Import Stem.
Local Open Scope R_scope.

(** One round of the loop of [shardsData]; [u1], [u2], [u3] are the three
    values of [Math.random()] it draws for the position. *)
Definition shardPos (u1 u2 u3 : R) : Vector3 :=
  let theta := u1 * PI * 2 in
  let phi := acos (2 * u2 - 1) in
  let r := 3 + u3 * 4 in
  vec3 (r * sin phi * cos theta) (r * sin phi * sin theta) (r * cos phi).

(** Scale of a shard at clock time [t]. *)
Definition shardScale (scale floatOffset t : R) : R :=
  scale + sin (t * 2 + floatOffset) * (scale * 0.1).

(** Height of a shard at clock time [t]. *)
Definition shardY (initialY floatSpeed floatOffset t : R) : R :=
  initialY + sin (t * floatSpeed + floatOffset) * 0.2.

(** [THREE.MathUtils.mapLinear(x, a1, a2, b1, b2)]. *)
Definition mapLinear (x a1 a2 b1 b2 : R) : R :=
  b1 + (x - a1) * (b2 - b1) / (a2 - a1).

(** Wing angle of a butterfly at (seeded) time [time]. *)
Definition flapAngle (time : R) : R :=
  let t := sin (time * 15) in
  mapLinear t (-1) 1 (-0.5) 1.0.

End ShardField.

(** Bounds on natural numbers, carried over to the reals. *)
Local Open Scope R_scope.
Ltac tier_bounds :=
  repeat match goal with
         | H : (_ <= _)%nat |- _ => apply le_INR in H
         | H : (_ < _)%nat |- _ => apply lt_INR in H
         end;
  simpl INR in *.
Local Close Scope R_scope.

(** * Properties of the merge engine *)

Module MergeFacts.
Import Merge.
Section Facts.

Context {F : Type}.
Variables (f0 f1 : F).
Implicit Types (g : @BufferGeometry F) (gs : list (@BufferGeometry F)).

Lemma typedArray_set_fill {A : Type} (done src : list A) (z : A) (r : nat) :
  typedArray_set (done ++ replicate (length src + r) z) src (length done)
  = Normal (done ++ src ++ replicate r z).
Proof.
  unfold typedArray_set.
  rewrite decide_True
    by (rewrite length_app, length_replicate; lia).
  rewrite take_app_length.
  rewrite drop_app_add'  by reflexivity.
  rewrite drop_replicate.
  replace (length src + r - length src) with r by lia.
  reflexivity.
Qed.

Lemma defaultNormals_S (n : nat) :
  defaultNormals f0 f1 (S n) = defaultNormals f0 f1 n ++ [f0; f1; f0].
Proof.
  unfold defaultNormals.
  induction n as [|n IH]; [reflexivity|].
  simpl in *. do 3 f_equal. exact IH.
Qed.

Lemma length_defaultNormals (n : nat) :
  length (defaultNormals f0 f1 n) = n * 3.
Proof.
  induction n as [|n IH]; [reflexivity|].
  rewrite defaultNormals_S, length_app, IH. simpl. lia.
Qed.

(** Progress of the default-normal loop after [k] of its [n] rounds. *)
Lemma fillDefaultNormals_progress (done : list F) (vOff n r k : nat) :
  length done = vOff * 3 ->
  k <= n ->
  fold_left (fun a j => <[(vOff + j) * 3 + 1 := f1]> a) (seq 0 k)
    (done ++ replicate (n * 3 + r) f0)
  = done ++ defaultNormals f0 f1 k ++ replicate ((n - k) * 3 + r) f0.
Proof.
  intros Hd. induction k as [|k IH]; intros Hk.
  - simpl. rewrite Nat.sub_0_r. reflexivity.
  - rewrite seq_S, fold_left_app, IH by lia. cbn [fold_left Nat.add].
    rewrite insert_app_r_alt by lia.
    rewrite insert_app_r_alt by (rewrite length_defaultNormals; lia).
    rewrite length_defaultNormals.
    replace ((vOff + k) * 3 + 1 - length done - k * 3) with 1 by lia.
    replace ((n - k) * 3 + r) with (3 + ((n - S k) * 3 + r)) by lia.
    rewrite defaultNormals_S, <- app_assoc. reflexivity.
Qed.

Lemma fillDefaultNormals_fill (done : list F) (vOff n r : nat) :
  length done = vOff * 3 ->
  fillDefaultNormals f1 (done ++ replicate (n * 3 + r) f0) vOff n
  = done ++ defaultNormals f0 f1 n ++ replicate r f0.
Proof.
  intros Hd. unfold fillDefaultNormals.
  rewrite (fillDefaultNormals_progress done vOff n r n Hd) by lia.
  rewrite Nat.sub_diag. reflexivity.
Qed.

Lemma copyIndices_progress (done : list Z) (ix : BufferAttribute Z)
  (vOff r k : nat) :
  itemSize ix = 1 ->
  k <= length (array ix) ->
  fold_left
    (fun a i =>
       <[length done + i :=
           toUint32 (option_map (fun x => (x + Z.of_nat vOff)%Z)
                       (getX ix i))]> a)
    (seq 0 k) (done ++ replicate (length (array ix) + r) 0%Z)
  = done ++ map (shiftIndex vOff) (take k (array ix))
      ++ replicate (length (array ix) - k + r) 0%Z.
Proof.
  intros Hsz. induction k as [|k IH]; intros Hk.
  - simpl. rewrite Nat.sub_0_r. reflexivity.
  - rewrite seq_S, fold_left_app, IH by lia. cbn [fold_left Nat.add].
    destruct (lookup_lt_is_Some_2 (array ix) k) as [x Hx]; [lia|].
    unfold getX. rewrite Hsz, Nat.mul_1_r, Hx. simpl.
    rewrite (take_S_r _ _ _ Hx), map_app, <- app_assoc. simpl.
    rewrite insert_app_r_alt by lia.
    rewrite insert_app_r_alt
      by (rewrite length_map, length_take; lia).
    rewrite length_map, length_take.
    replace (length done + k - length done - k `min` length (array ix))
      with 0 by lia.
    replace (length (array ix) - k + r)
      with (S (length (array ix) - S k + r)) by lia.
    reflexivity.
Qed.

Lemma sequentialIndices_progress (done : list Z) (vOff n r k : nat) :
  k <= n ->
  fold_left
    (fun a i =>
       <[length done + i :=
           toUint32 (Some (Z.of_nat i + Z.of_nat vOff)%Z)]> a)
    (seq 0 k) (done ++ replicate (n + r) 0%Z)
  = done ++ map (fun i => shiftIndex vOff (Z.of_nat i)) (seq 0 k)
      ++ replicate (n - k + r) 0%Z.
Proof.
  induction k as [|k IH]; intros Hk.
  - simpl. rewrite Nat.sub_0_r. reflexivity.
  - rewrite seq_S, fold_left_app, IH by lia. cbn [fold_left Nat.add].
    rewrite map_app, <- app_assoc. simpl.
    rewrite insert_app_r_alt by lia.
    rewrite insert_app_r_alt
      by (rewrite length_map, length_seq; lia).
    rewrite length_map, length_seq.
    replace (length done + k - length done - k) with 0 by lia.
    replace (n - k + r) with (S (n - S k + r)) by lia.
    reflexivity.
Qed.

(** *** Sizes of the reference arrays *)

Lemma meshBuffer_position g :
  meshBuffer g ->
  exists p, position g = Some p /\ vertexCount g = count p
            /\ length (positions g) = vertexCount g * 3.
Proof.
  unfold meshBuffer, vertexCount, positions.
  destruct (position g) as [p|]; [|tauto].
  intros (Hp & _). exists p. simpl. auto.
Qed.

Lemma length_normalsOf g :
  meshBuffer g -> length (normalsOf f0 f1 g) = vertexCount g * 3.
Proof.
  unfold meshBuffer, normalsOf, vertexCount.
  destruct (position g) as [p|]; [|tauto].
  intros (_ & Hn & _).
  destruct (normal g); [exact Hn|apply length_defaultNormals].
Qed.

Lemma length_uvsOf g :
  meshBuffer g -> length (uvsOf f0 g) = vertexCount g * 2.
Proof.
  unfold meshBuffer, uvsOf, vertexCount.
  destruct (position g) as [p|]; [|tauto].
  intros (_ & _ & Hu & _).
  destruct (uv g); [exact Hu|apply length_replicate].
Qed.

Lemma length_indicesOf (vOff : nat) g :
  meshBuffer g -> length (indicesOf vOff g) = indexCountOf g.
Proof.
  unfold meshBuffer, indicesOf, indexCountOf, vertexCount.
  destruct (position g) as [p|]; [|tauto].
  intros (_ & _ & _ & Hi).
  destruct (index g) as [ix|].
  - rewrite length_map. symmetry. apply Hi.
  - rewrite length_map, length_seq. reflexivity.
Qed.

Lemma totalVertexCount_app gs1 gs2 :
  totalVertexCount (gs1 ++ gs2)
  = totalVertexCount gs1 + totalVertexCount gs2.
Proof. apply sum_list_with_app. Qed.

Lemma totalIndexCount_app gs1 gs2 :
  totalIndexCount (gs1 ++ gs2) = totalIndexCount gs1 + totalIndexCount gs2.
Proof. apply sum_list_with_app. Qed.

Lemma length_flat_map_sized {A : Type} (f : BufferGeometry -> list A)
  (w : nat) gs :
  Forall (fun g => length (f g) = vertexCount g * w) gs ->
  length (flat_map f gs) = totalVertexCount gs * w.
Proof.
  induction 1 as [|g gs Hg _ IH]; [reflexivity|].
  cbn [flat_map]. rewrite length_app, Hg, IH.
  unfold totalVertexCount. simpl. lia.
Qed.

Lemma length_merged_positions gs :
  Forall meshBuffer gs ->
  length (flat_map positions gs) = totalVertexCount gs * 3.
Proof.
  intros H. apply length_flat_map_sized.
  eapply Forall_impl; [exact H|].
  intros g Hg. destruct (meshBuffer_position g Hg) as (p & _ & _ & Hl).
  exact Hl.
Qed.

Lemma length_merged_normals gs :
  Forall meshBuffer gs ->
  length (flat_map (normalsOf f0 f1) gs) = totalVertexCount gs * 3.
Proof.
  intros H. apply length_flat_map_sized.
  eapply Forall_impl; [exact H|]. apply length_normalsOf.
Qed.

Lemma length_merged_uvs gs :
  Forall meshBuffer gs ->
  length (flat_map (uvsOf f0) gs) = totalVertexCount gs * 2.
Proof.
  intros H. apply length_flat_map_sized.
  eapply Forall_impl; [exact H|]. apply length_uvsOf.
Qed.

Lemma length_mergedIndices (vOff : nat) gs :
  Forall meshBuffer gs ->
  length (mergedIndices vOff gs) = totalIndexCount gs.
Proof.
  intros H. revert vOff.
  induction H as [|g gs Hg _ IH]; intros vOff; [reflexivity|].
  cbn [mergedIndices]. rewrite length_app, length_indicesOf, IH by done.
  reflexivity.
Qed.

Lemma mergedIndices_app (vOff : nat) gs1 gs2 :
  mergedIndices vOff (gs1 ++ gs2)
  = mergedIndices vOff gs1
      ++ mergedIndices (vOff + totalVertexCount gs1) gs2.
Proof.
  revert vOff. induction gs1 as [|g gs1 IH]; intros vOff.
  - simpl. rewrite Nat.add_0_r. reflexivity.
  - cbn [mergedIndices app]. rewrite IH, <- app_assoc.
    unfold totalVertexCount. cbn [sum_list_with].
    rewrite Nat.add_assoc. reflexivity.
Qed.

(** *** The two loops *)

Lemma countTotals_meshBuffers gs (tv ti : nat) :
  Forall meshBuffer gs ->
  countTotals gs tv ti
  = Normal (tv + totalVertexCount gs, ti + totalIndexCount gs).
Proof.
  intros H. revert tv ti.
  induction H as [|g gs Hg _ IH]; intros tv ti.
  - simpl. rewrite !Nat.add_0_r. reflexivity.
  - cbn [countTotals].
    destruct (meshBuffer_position g Hg) as (p & Hp & Hc & _).
    rewrite Hp. cbn [deref bind]. rewrite IH.
    unfold totalVertexCount, totalIndexCount, indexCountOf.
    cbn [sum_list_with]. rewrite Hc.
    destruct (index g); do 2 f_equal; lia.
Qed.

Lemma totalVertexCount_snoc gs g :
  totalVertexCount (gs ++ [g]) = totalVertexCount gs + vertexCount g.
Proof.
  rewrite totalVertexCount_app. unfold totalVertexCount at 2.
  simpl. lia.
Qed.

Lemma totalIndexCount_snoc gs g :
  totalIndexCount (gs ++ [g]) = totalIndexCount gs + indexCountOf g.
Proof.
  rewrite totalIndexCount_app. unfold totalIndexCount at 2.
  simpl. lia.
Qed.

Lemma stateAfter_snoc (pre : list BufferGeometry) g (rv ri : nat) :
  stateAfter f0 f1 (pre ++ [g]) rv ri
  = mkState
      (flat_map positions pre ++ positions g ++ replicate (rv * 3) f0)
      (flat_map (normalsOf f0 f1) pre ++ normalsOf f0 f1 g
         ++ replicate (rv * 3) f0)
      (flat_map (uvsOf f0) pre ++ uvsOf f0 g ++ replicate (rv * 2) f0)
      (mergedIndices 0 pre ++ indicesOf (totalVertexCount pre) g
         ++ replicate ri 0%Z)
      (totalVertexCount pre + vertexCount g)
      (totalIndexCount pre + indexCountOf g).
Proof.
  unfold stateAfter.
  rewrite !flat_map_app, mergedIndices_app,
    totalVertexCount_snoc, totalIndexCount_snoc.
  cbn [flat_map mergedIndices]. rewrite !app_nil_r, <- !app_assoc.
  reflexivity.
Qed.

(** One round of the second loop appends the arrays of its input. *)
Lemma mergeOne_stateAfter (pre : list BufferGeometry) g (rv ri : nat) :
  Forall meshBuffer pre ->
  meshBuffer g ->
  mergeOne f1 (stateAfter f0 f1 pre (vertexCount g + rv)
                 (indexCountOf g + ri)) g
  = Normal (stateAfter f0 f1 (pre ++ [g]) rv ri).
Proof.
  intros Hpre Hg.
  pose proof (length_merged_positions pre Hpre) as HLp.
  pose proof (length_merged_normals pre Hpre) as HLn.
  pose proof (length_merged_uvs pre Hpre) as HLu.
  pose proof (length_mergedIndices 0 pre Hpre) as HLi.
  pose proof (length_normalsOf g Hg) as Hgn.
  pose proof (length_uvsOf g Hg) as Hgu.
  destruct (meshBuffer_position g Hg) as (p & Hp & Hc & Hgp).
  rewrite stateAfter_snoc. unfold mergeOne, stateAfter.
  cbn [positionArr normalArr uvArr indicesArr vertexOffset indexOffset].
  rewrite Hp. cbn [deref].
  (* positions *)
  replace ((vertexCount g + rv) * 3)
    with (length (positions g) + rv * 3) by lia.
  rewrite <- HLp at 1.
  replace (array p) with (positions g)
    by (unfold positions; rewrite Hp; reflexivity).
  rewrite typedArray_set_fill. cbn [bind].
  (* normals *)
  assert (Hnorm :
    match normal g with
    | Some n => typedArray_set
                  (flat_map (normalsOf f0 f1) pre
                     ++ replicate (length (positions g) + rv * 3) f0)
                  (array n) (totalVertexCount pre * 3)
    | None =>
        Normal (fillDefaultNormals f1
                  (flat_map (normalsOf f0 f1) pre
                     ++ replicate (length (positions g) + rv * 3) f0)
                  (totalVertexCount pre) (count p))
    end
    = Normal (flat_map (normalsOf f0 f1) pre ++ normalsOf f0 f1 g
                ++ replicate (rv * 3) f0)).
  { unfold normalsOf in *. destruct (normal g) as [n|].
    - rewrite Hgp, <- Hgn, <- HLn. apply typedArray_set_fill.
    - rewrite Hgp, Hc. f_equal.
      apply fillDefaultNormals_fill. exact HLn. }
  cbn [bind]. rewrite Hnorm. cbn [bind].
  (* texture coordinates *)
  assert (Huv :
    match uv g with
    | Some u => typedArray_set
                  (flat_map (uvsOf f0) pre
                     ++ replicate ((vertexCount g + rv) * 2) f0)
                  (array u) (totalVertexCount pre * 2)
    | None =>
        Normal (flat_map (uvsOf f0) pre
                  ++ replicate ((vertexCount g + rv) * 2) f0)
    end
    = Normal (flat_map (uvsOf f0) pre ++ uvsOf f0 g
                ++ replicate (rv * 2) f0)).
  { replace ((vertexCount g + rv) * 2)
      with (length (uvsOf f0 g) + rv * 2) by lia.
    unfold uvsOf in *. destruct (uv g) as [u|].
    - rewrite <- HLu. apply typedArray_set_fill.
    - rewrite length_replicate, replicate_add. reflexivity. }
  rewrite Huv. cbn [bind].
  (* indices *)
  assert (Hidx :
    match index g with
    | Some ix =>
        Normal (copyIndices
                  (mergedIndices 0 pre
                     ++ replicate (indexCountOf g + ri) 0%Z)
                  (totalIndexCount pre) ix (totalVertexCount pre),
                totalIndexCount pre + count ix)
    | None =>
        Normal (sequentialIndices
                  (mergedIndices 0 pre
                     ++ replicate (indexCountOf g + ri) 0%Z)
                  (totalIndexCount pre) (count p) (totalVertexCount pre),
                totalIndexCount pre + count p)
    end
    = Normal (mergedIndices 0 pre
                ++ indicesOf (totalVertexCount pre) g
                ++ replicate ri 0%Z,
              totalIndexCount pre + indexCountOf g)).
  { unfold indicesOf, indexCountOf. rewrite Hc.
    unfold meshBuffer in Hg. rewrite Hp in Hg.
    destruct Hg as (_ & _ & _ & Hi).
    destruct (index g) as [ix|].
    - destruct Hi as [Hsz Hcnt]. do 2 f_equal.
      unfold copyIndices. rewrite Hcnt, <- HLi.
      rewrite (copyIndices_progress _ ix _ ri _ Hsz) by lia.
      rewrite firstn_all, Nat.sub_diag. reflexivity.
    - do 2 f_equal. unfold sequentialIndices. rewrite <- HLi.
      rewrite sequentialIndices_progress by lia.
      rewrite Nat.sub_diag. reflexivity. }
  rewrite Hidx. cbn [bind fst snd]. rewrite Hc. reflexivity.
Qed.

Lemma forOf_mergeOne (post pre : list BufferGeometry) (rv ri : nat) :
  Forall meshBuffer pre ->
  Forall meshBuffer post ->
  forOf (mergeOne f1) post
    (stateAfter f0 f1 pre (totalVertexCount post + rv)
       (totalIndexCount post + ri))
  = Normal (stateAfter f0 f1 (pre ++ post) rv ri).
Proof.
  intros Hpre Hpost. revert pre Hpre.
  induction Hpost as [|g post Hg _ IH]; intros pre Hpre.
  - simpl. rewrite app_nil_r. reflexivity.
  - cbn [forOf].
    unfold totalVertexCount, totalIndexCount. cbn [sum_list_with].
    fold (totalVertexCount post). fold (totalIndexCount post).
    rewrite <- !Nat.add_assoc.
    rewrite mergeOne_stateAfter by assumption. cbn [bind].
    rewrite IH by (apply Forall_app; auto).
    rewrite <- app_assoc. reflexivity.
Qed.

(** The merge of a non-empty list of mesh buffers returns normally, with
    the concatenated attribute arrays and the shifted index runs. *)
Lemma mergeGeometries_meshBuffers gs :
  gs <> [] ->
  Forall meshBuffer gs ->
  mergeGeometries f0 f1 gs = Normal (mergedBuffer f0 f1 gs).
Proof.
  intros Hne Hgs. unfold mergeGeometries.
  destruct gs as [|g gs']; [congruence|].
  remember (g :: gs') as gs eqn:Egs. clear Egs Hne g gs'.
  rewrite countTotals_meshBuffers by assumption. cbn [bind fst snd].
  pose proof (forOf_mergeOne gs [] 0 0 ltac:(constructor) Hgs) as Hloop.
  unfold stateAfter at 1 in Hloop.
  cbn [flat_map mergedIndices app] in Hloop.
  unfold totalVertexCount at 4, totalIndexCount at 2 in Hloop.
  cbn [sum_list_with] in Hloop.
  rewrite !Nat.add_0_r in Hloop. rewrite !Nat.add_0_l.
  rewrite Hloop. cbn [bind app]. unfold stateAfter, mergedBuffer.
  cbn [positionArr normalArr uvArr indicesArr replicate Nat.mul].
  rewrite !app_nil_r. reflexivity.
Qed.

(** *** Consequences *)

Lemma vertexCount_mergedBuffer gs :
  Forall meshBuffer gs ->
  vertexCount (mergedBuffer f0 f1 gs) = totalVertexCount gs.
Proof.
  intros H. unfold vertexCount, mergedBuffer, newBufferAttribute.
  cbn [position count].
  rewrite length_merged_positions by assumption.
  apply Nat.div_mul. lia.
Qed.

Lemma shiftIndex_bounds (vOff : nat) (n : Z) (x : Z) :
  (0 <= x < n)%Z ->
  (0 <= shiftIndex vOff x < Z.of_nat vOff + n)%Z.
Proof.
  intros Hx. unfold shiftIndex.
  pose proof (Z.mod_pos_bound (x + Z.of_nat vOff) (2 ^ 32)
                ltac:(reflexivity)).
  pose proof (Z.mod_le (x + Z.of_nat vOff) (2 ^ 32) ltac:(lia)
                ltac:(reflexivity)).
  lia.
Qed.

Lemma indicesOf_bounds (vOff : nat) g :
  indicesInRange g ->
  Forall (fun i => (0 <= i < Z.of_nat (vOff + vertexCount g))%Z)
    (indicesOf vOff g).
Proof.
  unfold indicesInRange, indices, indicesOf. intros H.
  destruct (index g) as [ix|]; simpl in H; apply List.Forall_forall.
  - intros i Hi. apply in_map_iff in Hi as (x & <- & Hx).
    rewrite List.Forall_forall in H.
    pose proof (shiftIndex_bounds vOff _ x (H x Hx)). lia.
  - intros i Hi. apply in_map_iff in Hi as (k & <- & Hk).
    apply in_seq in Hk.
    pose proof (shiftIndex_bounds vOff (Z.of_nat (vertexCount g))
                  (Z.of_nat k) ltac:(lia)).
    lia.
Qed.

Lemma mergedIndices_bounds (vOff : nat) gs :
  Forall indicesInRange gs ->
  Forall (fun i => (0 <= i < Z.of_nat (vOff + totalVertexCount gs))%Z)
    (mergedIndices vOff gs).
Proof.
  intros H. revert vOff.
  induction H as [|g gs Hg _ IH]; intros vOff; [constructor|].
  cbn [mergedIndices]. apply Forall_app. split.
  - eapply Forall_impl; [apply indicesOf_bounds, Hg|].
    intros i Hi. unfold totalVertexCount. cbn [sum_list_with].
    simpl in Hi. lia.
  - eapply Forall_impl; [apply IH|].
    intros i Hi. unfold totalVertexCount in *. cbn [sum_list_with].
    simpl in Hi. lia.
Qed.

Lemma length_flat_map_positions gs :
  length (flat_map positions gs)
  = sum_list_with (fun g => length (positions g)) gs.
Proof.
  induction gs as [|g gs IH]; [reflexivity|].
  cbn [flat_map sum_list_with]. rewrite length_app, IH. reflexivity.
Qed.

(** C1. For every sequence of mesh buffers (each with a position
    attribute and indices that name its own vertices) the merge returns a
    buffer whose vertex count is the sum of the inputs' vertex counts
    (its position array holds three numbers for each of them), and every
    entry [i] of its index array satisfies [0 <= i <] that sum. *)
Theorem merge_vertex_count_and_index_range gs :
  Forall meshBuffer gs ->
  Forall indicesInRange gs ->
  exists m,
    mergeGeometries f0 f1 gs = Normal m
    /\ vertexCount m = totalVertexCount gs
    /\ length (positions m) = sum_list_with (fun g => length (positions g)) gs
    /\ Forall (fun i => (0 <= i < Z.of_nat (totalVertexCount gs))%Z)
         (indices m).
Proof.
  intros Hmb Hidx. destruct gs as [|g gs'].
  - exists emptyGeometry. repeat split. constructor.
  - exists (mergedBuffer f0 f1 (g :: gs')).
    split; [apply mergeGeometries_meshBuffers; [discriminate|assumption]|].
    split; [apply vertexCount_mergedBuffer; assumption|].
    split.
    + apply length_flat_map_positions.
    + exact (mergedIndices_bounds 0 (g :: gs') Hidx).
Qed.

Lemma map_shiftIndex_0 (l : list Z) :
  Forall (fun x => (0 <= x < 2 ^ 32)%Z) l ->
  map (shiftIndex 0) l = l.
Proof.
  induction 1 as [|x l Hx _ IH]; [reflexivity|].
  cbn [map]. rewrite IH. f_equal.
  unfold shiftIndex. rewrite Z.add_0_r. apply Z.mod_small, Hx.
Qed.

(** C2. A first input with 4 vertices and 6 indices followed by a second
    input with 3 vertices and no index buffer merge into a buffer with 7
    vertices and 9 indices: the first 6 are the indices of the first
    input unchanged, the last 3 are 4, 5, 6. *)
Theorem merge_indexed_then_unindexed g1 g2 (ix : BufferAttribute Z) :
  meshBuffer g1 ->
  meshBuffer g2 ->
  vertexCount g1 = 4 ->
  index g1 = Some ix ->
  count ix = 6 ->
  Forall (fun x => (0 <= x < 2 ^ 32)%Z) (array ix) ->
  vertexCount g2 = 3 ->
  index g2 = None ->
  exists m,
    mergeGeometries f0 f1 [g1; g2] = Normal m
    /\ vertexCount m = 7
    /\ length (indices m) = 9
    /\ subarray (indices m) 0 6 = array ix
    /\ subarray (indices m) 6 3 = [4; 5; 6]%Z.
Proof.
  intros H1 H2 Hv1 Hi1 Hc Hr Hv2 Hi2.
  assert (Hall : Forall meshBuffer [g1; g2]) by (repeat constructor; done).
  assert (Hlen : length (array ix) = 6).
  { unfold meshBuffer in H1. destruct (position g1); [|tauto].
    rewrite Hi1 in H1. destruct H1 as (_ & _ & _ & _ & <-). exact Hc. }
  assert (Hind : indices (mergedBuffer f0 f1 [g1; g2])
                 = array ix ++ [4; 5; 6]%Z).
  { unfold indices, mergedBuffer. cbn [index attrArray newBufferAttribute
      array mergedIndices].
    unfold indicesOf. rewrite Hi1, Hi2, Hv1, Hv2, app_nil_r.
    rewrite map_shiftIndex_0 by assumption. reflexivity. }
  exists (mergedBuffer f0 f1 [g1; g2]).
  split; [apply mergeGeometries_meshBuffers; [discriminate|assumption]|].
  split.
  { rewrite vertexCount_mergedBuffer by assumption.
    unfold totalVertexCount. cbn [sum_list_with]. rewrite Hv1, Hv2.
    reflexivity. }
  rewrite Hind. unfold subarray.
  split; [rewrite length_app, Hlen; reflexivity|].
  split.
  - rewrite drop_0, <- Hlen, take_app_length. reflexivity.
  - rewrite <- Hlen, drop_app_length. reflexivity.
Qed.

Lemma flat_map_middle {A : Type} (f : BufferGeometry -> list A)
  (w : nat) (pre post : list BufferGeometry) g :
  Forall (fun h => length (f h) = vertexCount h * w) pre ->
  length (f g) = vertexCount g * w ->
  subarray (flat_map f (pre ++ g :: post)) (totalVertexCount pre * w)
    (vertexCount g * w)
  = f g.
Proof.
  intros Hpre Hg. unfold subarray.
  rewrite flat_map_app. cbn [flat_map].
  rewrite <- (length_flat_map_sized f w pre Hpre), drop_app_length.
  rewrite <- Hg, take_app_length. reflexivity.
Qed.

(** C3. In the merged output the normal slots of an input without normal
    attribute hold the default normal (0,1,0) for each of its vertices,
    the texture-coordinate slots of an input without such an attribute
    are all zero, and the normals and texture coordinates of an input
    that has them are copied unchanged. *)
Theorem merge_missing_attributes_defaulted
  (pre post : list BufferGeometry) g :
  Forall meshBuffer (pre ++ g :: post) ->
  exists m,
    mergeGeometries f0 f1 (pre ++ g :: post) = Normal m
    /\ subarray (normals m) (totalVertexCount pre * 3) (vertexCount g * 3)
       = match normal g with
         | Some n => array n
         | None => concat (replicate (vertexCount g) [f0; f1; f0])
         end
    /\ subarray (uvs m) (totalVertexCount pre * 2) (vertexCount g * 2)
       = match uv g with
         | Some u => array u
         | None => replicate (vertexCount g * 2) f0
         end.
Proof.
  intros Hall.
  pose proof Hall as Hsplit.
  apply Forall_app in Hsplit as [Hpre Hrest].
  apply Forall_cons in Hrest as [Hg Hpost].
  exists (mergedBuffer f0 f1 (pre ++ g :: post)).
  split.
  { apply mergeGeometries_meshBuffers; [|assumption].
    destruct pre; discriminate. }
  unfold normals, uvs, mergedBuffer.
  cbn [normal uv attrArray newBufferAttribute array].
  split.
  - apply (flat_map_middle (normalsOf f0 f1) 3).
    + eapply Forall_impl; [exact Hpre|]. apply length_normalsOf.
    + apply length_normalsOf, Hg.
  - apply (flat_map_middle (uvsOf f0) 2).
    + eapply Forall_impl; [exact Hpre|]. apply length_uvsOf.
    + apply length_uvsOf, Hg.
Qed.

(** C4. The merge of the empty sequence returns normally, with a buffer
    that has no vertex and no index (and so satisfies the index
    invariant of the data model). *)
Theorem merge_empty_sequence :
  exists m,
    mergeGeometries f0 f1 [] = Normal m
    /\ vertexCount m = 0
    /\ positions m = []
    /\ indices m = []
    /\ indicesInRange m.
Proof.
  exists emptyGeometry. repeat split. constructor.
Qed.

Lemma countTotals_missing_position gs (tv ti : nat) :
  Exists (fun g => position g = None) gs ->
  countTotals gs tv ti = Throw TypeError.
Proof.
  intros H. revert tv ti.
  induction H as [g gs Hg|g gs _ IH]; intros tv ti; cbn [countTotals].
  - rewrite Hg. reflexivity.
  - destruct (position g); [|reflexivity]. cbn [deref bind]. apply IH.
Qed.

(** C9. When some input has no position attribute the merge does not
    return a buffer: it throws (a [TypeError]) to its caller. *)
Theorem merge_missing_position_throws gs :
  Exists (fun g => position g = None) gs ->
  mergeGeometries f0 f1 gs = Throw TypeError.
Proof.
  intros H. unfold mergeGeometries.
  destruct gs as [|g gs']; [inversion H|].
  rewrite countTotals_missing_position by assumption. reflexivity.
Qed.

Lemma length_indices_mergedBuffer gs :
  Forall meshBuffer gs ->
  length (indices (mergedBuffer f0 f1 gs)) = totalIndexCount gs.
Proof. intros H. apply (length_mergedIndices 0), H. Qed.

Lemma totalIndexCount_triangles gs :
  Forall triangleList gs -> totalIndexCount gs mod 3 = 0.
Proof.
  induction 1 as [|g gs Hg _ IH]; [reflexivity|].
  unfold totalIndexCount in *. cbn [sum_list_with].
  assert (indexCountOf g mod 3 = 0) as Hg'.
  { unfold triangleList in Hg. unfold indexCountOf.
    destruct (index g); exact Hg. }
  rewrite Nat.Div0.add_mod, Hg', IH. reflexivity.
Qed.

(** C10, amended. The merge returns as many indices as its inputs
    contribute (the index count of an indexed input, the vertex count of an
    input without index buffer).  When every input contributes a multiple
    of 3 the output index count is a multiple of 3; nothing is checked, and
    when one input without index buffer has a vertex count that is not a
    multiple of 3, the others contributing multiples of 3, the output
    index count is not a multiple of 3. *)
Theorem merge_index_count_triples gs :
  Forall meshBuffer gs ->
  exists m,
    mergeGeometries f0 f1 gs = Normal m
    /\ length (indices m) = totalIndexCount gs
    /\ (Forall triangleList gs -> length (indices m) mod 3 = 0)
    /\ (forall pre g post,
          gs = pre ++ g :: post ->
          Forall triangleList pre ->
          Forall triangleList post ->
          index g = None ->
          vertexCount g mod 3 <> 0 ->
          length (indices m) mod 3 <> 0).
Proof.
  intros Hall.
  assert (exists m, mergeGeometries f0 f1 gs = Normal m
                    /\ length (indices m) = totalIndexCount gs)
    as (m & Hm & Hlen).
  { destruct gs as [|g gs'].
    - exists emptyGeometry. split; reflexivity.
    - exists (mergedBuffer f0 f1 (g :: gs')). split.
      + apply mergeGeometries_meshBuffers; [discriminate|assumption].
      + apply length_indices_mergedBuffer, Hall. }
  exists m. split; [exact Hm|]. split; [exact Hlen|]. rewrite Hlen. split.
  - apply totalIndexCount_triangles.
  - intros pre g post -> Hpre Hpost Hi Hv.
    rewrite totalIndexCount_app.
    change (g :: post) with ([g] ++ post).
    rewrite totalIndexCount_app.
    pose proof (totalIndexCount_triangles pre Hpre) as H1.
    pose proof (totalIndexCount_triangles post Hpost) as H2.
    unfold totalIndexCount at 2. cbn [sum_list_with].
    unfold indexCountOf. rewrite Hi, Nat.add_0_r.
    rewrite Nat.Div0.add_mod, H1, Nat.add_0_l, Nat.Div0.mod_mod.
    rewrite Nat.Div0.add_mod, H2, Nat.add_0_r, Nat.Div0.mod_mod.
    exact Hv.
Qed.

End Facts.

(** *** The theorems at the sample inputs *)

Import Examples.

(** Outside the data model nothing is promised: attribute arrays that do
    not fit make [set] throw, and an index that names no vertex of its
    input is carried over as it is. *)
Example merge_lopsided_throws :
  mergeGeometries 0%Z 1%Z [lopsided] = Throw RangeError.
Proof. reflexivity. Qed.

Example merge_stray_keeps_index :
  exists m,
    mergeGeometries 0%Z 1%Z [stray] = Normal m
    /\ vertexCount m = 1
    /\ indices m = [5; 0; 0]%Z.
Proof. eexists. repeat split. Qed.

Lemma merge_vertex_count_and_index_range_witness :
  Forall meshBuffer [quad; triangle]
  /\ Forall indicesInRange [quad; triangle]
  /\ exists m,
       mergeGeometries 0%Z 1%Z [quad; triangle] = Normal m
       /\ vertexCount m = 7
       /\ length (positions m) = 21
       /\ Forall (fun i => (0 <= i < 7)%Z) (indices m).
Proof.
  assert (H1 : Forall meshBuffer [quad; triangle]) by mesh_buffers.
  assert (H2 : Forall indicesInRange [quad; triangle]) by in_range.
  split; [exact H1|]. split; [exact H2|].
  exact (merge_vertex_count_and_index_range 0%Z 1%Z [quad; triangle]
           H1 H2).
Defined.

Lemma merge_indexed_then_unindexed_witness :
  exists m,
    mergeGeometries 0%Z 1%Z [quad; triangle] = Normal m
    /\ vertexCount m = 7
    /\ length (indices m) = 9
    /\ subarray (indices m) 0 6 = [0; 1; 2; 0; 2; 3]%Z
    /\ subarray (indices m) 6 3 = [4; 5; 6]%Z.
Proof.
  apply (merge_indexed_then_unindexed 0%Z 1%Z quad triangle
           (newBufferAttribute [0; 1; 2; 0; 2; 3]%Z 1)).
  - vm_compute; repeat split.
  - vm_compute; repeat split.
  - reflexivity.
  - reflexivity.
  - reflexivity.
  - cbn. repeat (apply Forall_cons_2 || apply Forall_nil_2); lia.
  - reflexivity.
  - reflexivity.
Defined.

Lemma merge_missing_attributes_defaulted_witness :
  exists m,
    mergeGeometries 0%Z 1%Z [triangle; quad; triangle] = Normal m
    /\ subarray (normals m) 9 12
       = [0; 1; 0;  0; 1; 0;  0; 1; 0;  0; 1; 0]%Z
    /\ subarray (uvs m) 6 8 = [0; 0;  0; 0;  0; 0;  0; 0]%Z.
Proof.
  apply (merge_missing_attributes_defaulted 0%Z 1%Z [triangle] [triangle]
           quad).
  mesh_buffers.
Defined.

Lemma merge_missing_position_throws_witness :
  mergeGeometries 0%Z 1%Z [quad; bare; triangle] = Throw TypeError.
Proof.
  apply (merge_missing_position_throws 0%Z 1%Z [quad; bare; triangle]).
  apply Exists_cons_tl, Exists_cons_hd. reflexivity.
Defined.

(** C10, as stated, fails for three inputs of 2 vertices each without index
    buffer: none of them has a vertex count divisible by 3, and yet the
    merged output has 6 indices, a multiple of 3. *)
Lemma merge_index_count_triples_counterexample :
  Forall meshBuffer [segment; segment; segment]
  /\ index segment = None
  /\ vertexCount segment mod 3 <> 0
  /\ exists m,
       mergeGeometries 0%Z 1%Z [segment; segment; segment] = Normal m
       /\ length (indices m) = 6
       /\ length (indices m) mod 3 = 0.
Proof.
  split; [mesh_buffers|]. split; [reflexivity|].
  split; [vm_compute; discriminate|].
  eexists. split; [vm_compute; reflexivity|]. split; reflexivity.
Qed.

Lemma merge_index_count_triples_witness :
  (exists m,
     mergeGeometries 0%Z 1%Z [quad; triangle] = Normal m
     /\ length (indices m) mod 3 = 0)
  /\ (exists m,
        mergeGeometries 0%Z 1%Z [quad; segment; triangle] = Normal m
        /\ length (indices m) mod 3 <> 0).
Proof.
  split.
  - destruct (merge_index_count_triples 0%Z 1%Z [quad; triangle])
      as (m & Hm & _ & Htri & _); [mesh_buffers|].
    exists m. split; [exact Hm|]. apply Htri.
    repeat (apply Forall_cons_2 || apply Forall_nil_2); reflexivity.
  - destruct (merge_index_count_triples 0%Z 1%Z [quad; segment; triangle])
      as (m & Hm & _ & _ & Hbad); [mesh_buffers|].
    exists m. split; [exact Hm|].
    apply (Hbad [quad] segment [triangle]).
    + reflexivity.
    + repeat (apply Forall_cons_2 || apply Forall_nil_2); reflexivity.
    + repeat (apply Forall_cons_2 || apply Forall_nil_2); reflexivity.
    + reflexivity.
    + vm_compute. discriminate.
Defined.

End MergeFacts.

(** * Properties of the thorn placement *)

Module StemFacts.
Import Stem.
Local Open Scope R_scope.

(** C8. For every thorn index and every jitter added to its base curve
    parameter, the placement parameter lies in [0.12, 0.99]. *)
Theorem thornParameter_clamped (i : nat) (tJitter : R) :
  0.12 <= thornParameter i tJitter <= 0.99.
Proof.
  unfold thornParameter. split.
  - apply Rmax_l.
  - apply Rmax_lub; [lra|apply Rmin_l].
Qed.

Lemma lengthSq_nonneg (a : Vector3) : 0 <= lengthSq a.
Proof. unfold lengthSq. nra. Qed.

Lemma length_of_unit (a : Vector3) : lengthSq a = 1 -> length a = 1.
Proof. intros H. unfold length. rewrite H. apply sqrt_1. Qed.

(** A vector of squared length 1 is left as it is. *)
Lemma normalize_unit (a : Vector3) : lengthSq a = 1 -> normalize a = a.
Proof.
  intros H. unfold normalize. rewrite (length_of_unit a H).
  destruct (Req_dec_T 1 0) as [E|_]; [lra|].
  unfold divideScalar, multiplyScalar. destruct a as [ax ay az]. simpl.
  f_equal; field.
Qed.

Lemma referenceUp_worldUp : referenceUp worldUp = secondaryAxis.
Proof.
  unfold referenceUp, worldUp. simpl. rewrite Rabs_R1.
  destruct (Rlt_dec 0.9 1) as [_|H]; [reflexivity|lra].
Qed.

Lemma sampleTangent_worldUp : sampleTangent worldUp = worldUp.
Proof.
  unfold sampleTangent.
  rewrite normalize_unit by (unfold lengthSq, worldUp; simpl; ring).
  destruct (Rlt_dec (lengthSq worldUp) 0.1) as [H|_]; [|reflexivity].
  unfold lengthSq, worldUp in H. simpl in H. lra.
Qed.

(** Around the vertical axis the radial direction is the first world
    axis turned by [angle]. *)
Lemma thornNormal_worldUp (angle : R) :
  thornNormal worldUp angle
  = vec3 (1 - 2 * (sin (angle / 2) * sin (angle / 2))) 0
         (- (2 * (sin (angle / 2) * cos (angle / 2)))).
Proof.
  unfold thornNormal. rewrite referenceUp_worldUp.
  assert (Hb : crossVectors worldUp secondaryAxis = vec3 1 0 0).
  { unfold crossVectors, worldUp, secondaryAxis. simpl. f_equal; ring. }
  rewrite Hb.
  rewrite (normalize_unit (vec3 1 0 0))
    by (unfold lengthSq; simpl; ring).
  assert (Hr : applyAxisAngle (vec3 1 0 0) worldUp angle
               = vec3 (1 - 2 * (sin (angle / 2) * sin (angle / 2))) 0
                      (- (2 * (sin (angle / 2) * cos (angle / 2))))).
  { unfold applyAxisAngle, applyQuaternion, setFromAxisAngle, worldUp.
    simpl. f_equal; ring. }
  rewrite Hr. apply normalize_unit.
  unfold lengthSq. simpl.
  pose proof (sin2_cos2 (angle / 2)) as H. unfold Rsqr in H. nra.
Qed.

(** C7. With the tangent along the world vertical axis the reference up
    vector is replaced by the secondary world axis, and the basis built
    for the thorn is orthonormal: pairwise dot products 0, lengths 1. *)
Theorem thornFrame_worldUp_orthonormal (angle : R) :
  sampleTangent worldUp = worldUp
  /\ referenceUp worldUp = secondaryAxis
  /\ orthonormal (thornFrame worldUp angle).
Proof.
  split; [apply sampleTangent_worldUp|].
  split; [apply referenceUp_worldUp|].
  unfold thornFrame. rewrite thornNormal_worldUp.
  set (s := sin (angle / 2)). set (c := cos (angle / 2)).
  assert (Hsc : s * s + c * c = 1).
  { pose proof (sin2_cos2 (angle / 2)) as H. unfold Rsqr in H. exact H. }
  set (n := vec3 (1 - 2 * (s * s)) 0 (- (2 * (s * c)))).
  assert (Hx : normalize (crossVectors n (negate worldUp))
               = vec3 (- (2 * (s * c))) 0 (- (1 - 2 * (s * s)))).
  { assert (E : crossVectors n (negate worldUp)
                = vec3 (- (2 * (s * c))) 0 (- (1 - 2 * (s * s)))).
    { unfold crossVectors, negate, worldUp, n. simpl. f_equal; ring. }
    rewrite E. apply normalize_unit. unfold lengthSq. simpl. nra. }
  rewrite Hx.
  assert (Hz : normalize
                 (crossVectors
                    (vec3 (- (2 * (s * c))) 0 (- (1 - 2 * (s * s)))) n)
               = vec3 0 (-1) 0).
  { assert (E : crossVectors
                  (vec3 (- (2 * (s * c))) 0 (- (1 - 2 * (s * s)))) n
                = vec3 0 (-1) 0).
    { unfold crossVectors, n. simpl. f_equal; nra. }
    rewrite E. apply normalize_unit. unfold lengthSq. simpl. ring. }
  rewrite Hz. unfold orthonormal. simpl.
  repeat split;
    try (unfold dot, n; simpl; ring);
    apply length_of_unit; unfold lengthSq, n; simpl; nra.
Qed.

End StemFacts.

(** * Properties of the petal layout *)

Module FlowerHeadFacts.
Import FlowerHead.
Local Open Scope R_scope.

Lemma nth_error_petalPlacements (i : nat) :
  (i < totalPetals)%nat ->
  nth_error petalPlacements i = Some (petalPlacement i).
Proof.
  unfold totalPetals. intros Hi.
  do 22 (destruct i as [|i]; [reflexivity|]). lia.
Qed.

(** No multiple of 55 other than 0, up to 21 steps either way, comes
    within 2 of a multiple of 144 (137.5 / 360 = 55 / 144). *)
Lemma golden_residue (d k : Z) :
  (-21 <= d <= 21)%Z -> d <> 0%Z -> (3 <= Z.abs (55 * d - 144 * k))%Z.
Proof. lia. Qed.

Lemma theta_difference (i j : nat) (k : Z) :
  theta (petalPlacement j) - theta (petalPlacement i) - IZR k * degrees 360
  = degrees (5 / 2)
    * IZR (55 * (Z.of_nat j - Z.of_nat i) - 144 * k).
Proof.
  unfold petalPlacement, goldenAngle, degrees. cbn [theta].
  rewrite !INR_IZR_INZ, minus_IZR, !mult_IZR, minus_IZR. lra.
Qed.

Lemma degrees_pos (d : R) : 0 < d -> 0 < degrees d.
Proof.
  intros Hd. unfold degrees. pose proof PI_RGT_0.
  apply Rmult_lt_0_compat; lra.
Qed.

Lemma petal_angles_apart (i j : nat) (k : Z) :
  (i < totalPetals)%nat -> (j < totalPetals)%nat -> i <> j ->
  degrees 7.5
  <= Rabs (theta (petalPlacement j) - theta (petalPlacement i)
           - IZR k * degrees 360).
Proof.
  unfold totalPetals. intros Hi Hj Hij.
  rewrite theta_difference, Rabs_mult.
  pose proof (degrees_pos (5 / 2) ltac:(lra)) as Hpos.
  rewrite (Rabs_pos_eq (degrees (5 / 2))) by lra.
  rewrite <- abs_IZR.
  pose proof (golden_residue (Z.of_nat j - Z.of_nat i) k
                ltac:(lia) ltac:(lia)) as Hres.
  apply IZR_le in Hres.
  replace (degrees 7.5) with (degrees (5 / 2) * 3)
    by (unfold degrees; lra).
  apply Rmult_le_compat_l; lra.
Qed.

(** C5. The petal loop makes 22 placements, the [i]-th at the angle
    [i * goldenAngle] with [goldenAngle] = 137.5 degrees and a yaw of
    [- angle - 90] degrees; consecutive angles differ by 137.5 degrees,
    and any two of the 22 angles stay at least 7.5 degrees apart modulo
    360 degrees. *)
Theorem petal_layout_golden_angle :
  List.length petalPlacements = 22%nat
  /\ goldenAngle = degrees 137.5
  /\ (forall i : nat, (i < 22)%nat ->
        exists p,
          nth_error petalPlacements i = Some p
          /\ theta p = INR i * goldenAngle
          /\ rotY p = - theta p - degrees 90)
  /\ (forall i : nat,
        theta (petalPlacement (S i)) - theta (petalPlacement i)
        = degrees 137.5)
  /\ (forall (i j : nat) (k : Z),
        (i < 22)%nat -> (j < 22)%nat -> i <> j ->
        degrees 7.5
        <= Rabs (theta (petalPlacement j) - theta (petalPlacement i)
                 - IZR k * degrees 360)).
Proof.
  split; [reflexivity|]. split; [reflexivity|]. split; [|split].
  - intros i Hi. exists (petalPlacement i).
    split; [apply nth_error_petalPlacements, Hi|].
    split; [reflexivity|].
    unfold petalPlacement, degrees. cbn [theta rotY]. lra.
  - intros i. unfold petalPlacement, goldenAngle, degrees. cbn [theta].
    rewrite S_INR. lra.
  - exact petal_angles_apart.
Qed.

Lemma petal_layout_golden_angle_witness :
  theta (petalPlacement 1) - theta (petalPlacement 0) = degrees 137.5
  /\ degrees 7.5
     <= Rabs (theta (petalPlacement 21) - theta (petalPlacement 0)
              - IZR 8 * degrees 360).
Proof.
  destruct petal_layout_golden_angle as (_ & _ & _ & Hstep & Hapart).
  split; [apply (Hstep 0%nat)|].
  apply (Hapart 0%nat 21%nat 8%Z); lia.
Defined.

End FlowerHeadFacts.

(** * Properties of the petal width envelope *)

Module PetalFacts.
Import Petal.
Local Open Scope R_scope.

Lemma Math_pow_pos (x y : R) : 0 < x -> Math_pow x y = Rpower x y.
Proof.
  intros Hx. unfold Math_pow. destruct (Rle_dec x 0); [lra|reflexivity].
Qed.

Lemma Math_pow_nonneg (x y : R) : 0 <= Math_pow x y.
Proof.
  unfold Math_pow. destruct (Rle_dec x 0); [lra|].
  left. apply exp_pos.
Qed.

Lemma Math_pow_le_1 (x y : R) : 0 <= y -> x <= 1 -> Math_pow x y <= 1.
Proof.
  intros Hy Hx. unfold Math_pow. destruct (Rle_dec x 0); [lra|].
  assert (E : Rpower 1 y = 1)
    by (unfold Rpower; rewrite ln_1, Rmult_0_r; apply exp_0).
  pose proof (Rle_Rpower_l x 1 y Hy ltac:(lra)). lra.
Qed.

Lemma shapeWidth_unfold (v : R) :
  shapeWidth v
  = Math_pow (Rmax 0 (sin (v * PI * 0.85))) 0.4 * Rmin 1 (v * 3.5).
Proof. unfold shapeWidth. replace 1.0 with 1 by lra. reflexivity. Qed.

(** On (0, 1] the argument of the sine stays inside (0, PI). *)
Lemma sine_argument_range (v : R) :
  0 < v <= 1 -> 0 < v * PI * 0.85 < PI.
Proof. intros Hv. pose proof PI_RGT_0. split; nra. Qed.

Lemma shapeWidth_positive_range (v : R) :
  0 < v <= 1 ->
  shapeWidth v = Rpower (sin (v * PI * 0.85)) 0.4 * Rmin 1 (v * 3.5).
Proof.
  intros Hv. rewrite shapeWidth_unfold.
  destruct (sine_argument_range v Hv) as [H0 H1].
  pose proof (sin_gt_0 _ H0 H1) as Hs.
  rewrite Rmax_right by lra. rewrite Math_pow_pos by exact Hs.
  reflexivity.
Qed.

Lemma shapeWidth_at_0 : shapeWidth 0 = 0.
Proof.
  rewrite shapeWidth_unfold.
  replace (0 * 3.5) with 0 by ring.
  rewrite Rmin_right by lra. ring.
Qed.

Lemma shapeWidth_nonneg (v : R) : 0 <= v -> 0 <= shapeWidth v.
Proof.
  intros Hv. unfold shapeWidth. apply Rmult_le_pos.
  - apply Math_pow_nonneg.
  - apply Rmin_glb; lra.
Qed.

Lemma shapeWidth_le_1 (v : R) : 0 <= v -> shapeWidth v <= 1.
Proof.
  intros Hv. rewrite shapeWidth_unfold.
  pose proof (Math_pow_nonneg (Rmax 0 (sin (v * PI * 0.85))) 0.4) as H0.
  assert (H1 : Math_pow (Rmax 0 (sin (v * PI * 0.85))) 0.4 <= 1).
  { apply Math_pow_le_1; [lra|].
    apply Rmax_lub; [lra|]. apply SIN_bound. }
  assert (H2 : 0 <= Rmin 1 (v * 3.5) <= 1).
  { split; [apply Rmin_glb; lra|apply Rmin_l]. }
  nra.
Qed.

Lemma shapeWidth_pos (v : R) : 0 < v <= 1 -> 0 < shapeWidth v.
Proof.
  intros Hv. rewrite shapeWidth_positive_range by exact Hv.
  apply Rmult_lt_0_compat; [apply exp_pos|].
  apply Rmin_glb_lt; lra.
Qed.

(** Past the crest at v = 10/17 the envelope only narrows. *)
Lemma shapeWidth_decreasing (u v : R) :
  10 / 17 <= u -> u <= v -> v <= 1 -> shapeWidth v <= shapeWidth u.
Proof.
  intros Hu Huv Hv. pose proof PI_RGT_0 as Hpi.
  rewrite !shapeWidth_positive_range by lra.
  rewrite !Rmin_left by lra. rewrite !Rmult_1_r.
  destruct (sine_argument_range v ltac:(lra)) as [Hv0 Hv1].
  apply Rle_Rpower_l; [lra|]. split.
  - apply sin_gt_0; assumption.
  - apply sin_decr_1; nra.
Qed.

Lemma sin_045 : 0.43 < sin 0.45.
Proof.
  pose proof PI2_3_2.
  destruct (SIN 0.45 ltac:(lra) ltac:(lra)) as [H1 _].
  eapply Rlt_le_trans; [|exact H1].
  unfold sin_lb, sin_approx, sin_term.
  cbn [sum_f_R0 Nat.mul Nat.add]. cbn [fact Nat.mul Nat.add].
  cbn [pow]. cbn [INR]. lra.
Qed.

Lemma Rpower_two_fifths (x : R) : 0.43 < x -> 0.7 < Rpower x 0.4.
Proof.
  intros Hx. apply Rnot_le_lt. intros Hle.
  assert (H5 : (Rpower x 0.4) ^ 5 <= 0.7 ^ 5).
  { apply pow_incr. split; [left; apply exp_pos|exact Hle]. }
  rewrite <- Rpower_pow in H5 by apply exp_pos.
  rewrite Rpower_mult in H5.
  replace (0.4 * INR 5) with (INR 2) in H5 by (simpl; lra).
  rewrite Rpower_pow in H5 by lra.
  simpl in H5. nra.
Qed.

(** At the tip the envelope is still wide: sin(0.85 PI)^0.4 > 0.7. *)
Lemma shapeWidth_at_tip : 0.7 < shapeWidth 1.
Proof.
  rewrite shapeWidth_positive_range by lra.
  rewrite Rmin_left by lra. rewrite Rmult_1_r.
  apply Rpower_two_fifths.
  pose proof PI2_3_2. pose proof PI_4.
  replace (1 * PI * 0.85) with (PI - 0.15 * PI) by lra.
  rewrite sin_PI_x.
  eapply Rlt_le_trans; [apply sin_045|].
  apply sin_incr_1; lra.
Qed.

(** C6, as stated, fails at v = 1: the envelope does not come back to 0
    at the tip, where it is still above 0.7. *)
Lemma shapeWidth_tip_counterexample :
  0.7 < shapeWidth 1 /\ ~ vanishesTowardsTip shapeWidth.
Proof.
  split; [apply shapeWidth_at_tip|].
  intros Hlim.
  destruct (Hlim 0.7 ltac:(lra)) as (delta & Hdelta & Hsmall).
  pose proof (Hsmall 1 ltac:(lra)) as H.
  pose proof shapeWidth_at_tip. lra.
Qed.

(** C6, amended. The envelope is 0 at v = 0, lies in [0, 1] on [0, 1],
    is positive on (0, 1], and from its crest at v = 10/17 on it only
    decreases, down to a value above 0.7 at v = 1. *)
Theorem shapeWidth_envelope :
  shapeWidth 0 = 0
  /\ (forall v : R, 0 <= v <= 1 -> 0 <= shapeWidth v <= 1)
  /\ (forall v : R, 0 < v <= 1 -> 0 < shapeWidth v)
  /\ (forall u v : R,
        10 / 17 <= u -> u <= v -> v <= 1 -> shapeWidth v <= shapeWidth u)
  /\ 0.7 < shapeWidth 1.
Proof.
  split; [apply shapeWidth_at_0|].
  split; [intros v [H0 H1]; split;
          [apply shapeWidth_nonneg|apply shapeWidth_le_1]; exact H0|].
  split; [apply shapeWidth_pos|].
  split; [apply shapeWidth_decreasing|apply shapeWidth_at_tip].
Qed.

Lemma shapeWidth_envelope_witness :
  0 <= shapeWidth (1 / 2) <= 1
  /\ 0 < shapeWidth (1 / 2)
  /\ shapeWidth 1 <= shapeWidth (3 / 4).
Proof.
  destruct shapeWidth_envelope as (_ & Hrange & Hpos & Hdecr & _).
  split; [apply Hrange; lra|].
  split; [apply Hpos; lra|].
  apply Hdecr; lra.
Defined.

End PetalFacts.

(** * Further properties of the merge engine *)

Module MergeMore.
Import Merge MergeFacts.
Section More.

Context {F : Type}.
Variables (f0 f1 : F).
Implicit Types (g : @BufferGeometry F) (gs : list (@BufferGeometry F)).

Lemma subarray_middle {A : Type} (a b c : list A) :
  subarray (a ++ b ++ c) (length a) (length b) = b.
Proof.
  unfold subarray. rewrite drop_app_length, take_app_length. reflexivity.
Qed.

Lemma subarray_inside {A : Type} (a b c : list A) (k n : nat) :
  k + n <= length b ->
  subarray (a ++ b ++ c) (length a + k) n = subarray b k n.
Proof.
  intros H. unfold subarray.
  rewrite drop_app_add', drop_app_le by lia.
  rewrite take_app_le by (rewrite length_drop; lia).
  reflexivity.
Qed.

(** X1. The vertices of every input are copied unchanged, in input order: the
    slice of the merged position array that belongs to an input is the
    position array of that input. *)
Theorem merge_positions_verbatim (pre post : list BufferGeometry) g :
  Forall meshBuffer (pre ++ g :: post) ->
  exists m,
    mergeGeometries f0 f1 (pre ++ g :: post) = Normal m
    /\ subarray (positions m) (totalVertexCount pre * 3) (vertexCount g * 3)
       = positions g.
Proof.
  intros Hall. pose proof Hall as Hsplit.
  apply Forall_app in Hsplit as [Hpre Hrest].
  apply Forall_cons in Hrest as [Hg Hpost].
  exists (mergedBuffer f0 f1 (pre ++ g :: post)). split.
  { apply mergeGeometries_meshBuffers; [|assumption].
    destruct pre; discriminate. }
  unfold positions at 1, mergedBuffer.
  cbn [position attrArray newBufferAttribute array].
  apply (flat_map_middle positions 3).
  - eapply Forall_impl; [exact Hpre|]. intros h Hh.
    destruct (meshBuffer_position h Hh) as (p & _ & _ & Hl). exact Hl.
  - destruct (meshBuffer_position g Hg) as (p & _ & _ & Hl). exact Hl.
Qed.

Lemma shiftIndex_uint32 (vOff : nat) (x : Z) :
  (0 <= shiftIndex vOff x < 2 ^ 32)%Z.
Proof. unfold shiftIndex. apply Z.mod_pos_bound. reflexivity. Qed.

Lemma mergedIndices_uint32 (vOff : nat) gs :
  Forall (fun i => (0 <= i < 2 ^ 32)%Z) (mergedIndices vOff gs).
Proof.
  revert vOff. induction gs as [|g gs IH]; intros vOff; [constructor|].
  cbn [mergedIndices]. apply Forall_app. split; [|apply IH].
  unfold indicesOf. destruct (index g); apply List.Forall_forall;
    intros i Hi; apply in_map_iff in Hi as (x & <- & _);
    apply shiftIndex_uint32.
Qed.

Lemma meshBuffer_mergedBuffer gs :
  Forall meshBuffer gs -> meshBuffer (mergedBuffer f0 f1 gs).
Proof.
  intros H. unfold meshBuffer, mergedBuffer, newBufferAttribute.
  cbn [position normal uv index array count itemSize].
  rewrite (length_merged_positions gs H).
  rewrite (length_merged_normals f0 f1 gs H).
  rewrite (length_merged_uvs f0 gs H).
  rewrite Nat.div_mul by lia. rewrite Nat.div_1_r. repeat split.
Qed.

(** X2. The merge is closed on the data model: merging a non-empty list of
    mesh buffers gives a mesh buffer again, always with a normal, a texture
    coordinate and an index attribute, with every stored index a 32-bit
    unsigned value; when the inputs keep the index invariant, so does the
    result.  Its output may thus be fed to a later merge. *)
Theorem merge_result_is_mesh_buffer gs :
  gs <> [] ->
  Forall meshBuffer gs ->
  exists m,
    mergeGeometries f0 f1 gs = Normal m
    /\ meshBuffer m
    /\ is_Some (normal m) /\ is_Some (uv m) /\ is_Some (index m)
    /\ Forall (fun i => (0 <= i < 2 ^ 32)%Z) (indices m)
    /\ (Forall indicesInRange gs -> indicesInRange m).
Proof.
  intros Hne Hgs. exists (mergedBuffer f0 f1 gs).
  split; [apply mergeGeometries_meshBuffers; assumption|].
  split; [apply meshBuffer_mergedBuffer; assumption|].
  split; [eexists; reflexivity|]. split; [eexists; reflexivity|].
  split; [eexists; reflexivity|].
  split; [apply (mergedIndices_uint32 0)|].
  intros Hr. unfold indicesInRange.
  rewrite vertexCount_mergedBuffer by assumption.
  exact (mergedIndices_bounds 0 gs Hr).
Qed.

Lemma shiftIndex_shiftIndex (a b : nat) (x : Z) :
  shiftIndex a (shiftIndex b x) = shiftIndex (a + b) x.
Proof.
  unfold shiftIndex. rewrite Zplus_mod_idemp_l. f_equal. lia.
Qed.

Lemma map_shiftIndex_mergedIndices (a b : nat) gs :
  map (shiftIndex a) (mergedIndices b gs) = mergedIndices (a + b) gs.
Proof.
  revert b. induction gs as [|g gs IH]; intros b; [reflexivity|].
  cbn [mergedIndices]. rewrite map_app, IH, Nat.add_assoc. f_equal.
  unfold indicesOf. destruct (index g); rewrite map_map;
    apply map_ext; intros x; apply shiftIndex_shiftIndex.
Qed.

(** What an already merged group contributes to an outer merge. *)
Lemma mergedBuffer_contribution (mid : list BufferGeometry) (vOff : nat) :
  Forall meshBuffer mid ->
  positions (mergedBuffer f0 f1 mid) = flat_map positions mid
  /\ normalsOf f0 f1 (mergedBuffer f0 f1 mid)
     = flat_map (normalsOf f0 f1) mid
  /\ uvsOf f0 (mergedBuffer f0 f1 mid) = flat_map (uvsOf f0) mid
  /\ indicesOf vOff (mergedBuffer f0 f1 mid) = mergedIndices vOff mid
  /\ vertexCount (mergedBuffer f0 f1 mid) = totalVertexCount mid.
Proof.
  intros H. repeat split; try reflexivity.
  - unfold indicesOf, mergedBuffer.
    cbn [index newBufferAttribute array].
    rewrite map_shiftIndex_mergedIndices, Nat.add_0_r. reflexivity.
  - apply vertexCount_mergedBuffer, H.
Qed.

Lemma mergedBuffer_flatten (pre mid post : list BufferGeometry) :
  Forall meshBuffer mid ->
  mergedBuffer f0 f1 (pre ++ mergedBuffer f0 f1 mid :: post)
  = mergedBuffer f0 f1 (pre ++ mid ++ post).
Proof.
  intros Hmid.
  destruct (mergedBuffer_contribution mid (0 + totalVertexCount pre) Hmid)
    as (Hp & Hn & Hu & Hi & Hv).
  unfold mergedBuffer at 1 3.
  rewrite !flat_map_app, !mergedIndices_app. cbn [flat_map mergedIndices].
  rewrite Hp, Hn, Hu, Hi, Hv. reflexivity.
Qed.

(** X3. Nested merges flatten: merging a list in which a group of inputs was
    merged beforehand gives the very buffer that merging all the inputs at
    once gives (the leaf assembly is merged first and then merged again
    with the stem). *)
Theorem merge_nested_flattens (pre mid post : list BufferGeometry) :
  mid <> [] ->
  Forall meshBuffer (pre ++ mid ++ post) ->
  exists inner outer,
    mergeGeometries f0 f1 mid = Normal inner
    /\ mergeGeometries f0 f1 (pre ++ inner :: post) = Normal outer
    /\ mergeGeometries f0 f1 (pre ++ mid ++ post) = Normal outer.
Proof.
  intros Hne Hall. pose proof Hall as Hsplit.
  apply Forall_app in Hsplit as [Hpre Hrest].
  apply Forall_app in Hrest as [Hmid Hpost].
  exists (mergedBuffer f0 f1 mid), (mergedBuffer f0 f1 (pre ++ mid ++ post)).
  split; [apply mergeGeometries_meshBuffers; assumption|]. split.
  - rewrite <- mergedBuffer_flatten by assumption.
    apply mergeGeometries_meshBuffers; [destruct pre; discriminate|].
    apply Forall_app. split; [assumption|].
    apply Forall_cons. split; [|assumption].
    apply meshBuffer_mergedBuffer, Hmid.
  - apply mergeGeometries_meshBuffers; [|assumption].
    destruct pre; [destruct mid; [congruence|discriminate]|discriminate].
Qed.

End More.

(** *** At the sample inputs *)

Import Examples.

Lemma merge_positions_verbatim_witness :
  exists m,
    mergeGeometries 0%Z 1%Z [quad; triangle; segment] = Normal m
    /\ subarray (positions m) 12 9 = [0; 0; 5;  1; 0; 5;  0; 1; 5]%Z.
Proof.
  apply (merge_positions_verbatim 0%Z 1%Z [quad] [segment] triangle).
  mesh_buffers.
Defined.

Lemma merge_result_is_mesh_buffer_witness :
  exists m,
    mergeGeometries 0%Z 1%Z [quad; triangle] = Normal m
    /\ meshBuffer m
    /\ is_Some (normal m) /\ is_Some (uv m) /\ is_Some (index m)
    /\ Forall (fun i => (0 <= i < 2 ^ 32)%Z) (indices m)
    /\ (Forall indicesInRange [quad; triangle] -> indicesInRange m).
Proof.
  apply (merge_result_is_mesh_buffer 0%Z 1%Z [quad; triangle]).
  - discriminate.
  - mesh_buffers.
Defined.

Lemma merge_nested_flattens_witness :
  exists inner outer,
    mergeGeometries 0%Z 1%Z [triangle; quad] = Normal inner
    /\ mergeGeometries 0%Z 1%Z ([quad] ++ inner :: [segment]) = Normal outer
    /\ mergeGeometries 0%Z 1%Z [quad; triangle; quad; segment] = Normal outer.
Proof.
  apply (merge_nested_flattens 0%Z 1%Z [quad] [triangle; quad] [segment]).
  - discriminate.
  - mesh_buffers.
Defined.

End MergeMore.

(** * Errors of the merge engine, exact offsets, and the antenna merge *)

Module MergeErrors.
Import Merge MergeFacts Shards.
Section Errors.

Context {F : Type}.
Variables (f0 f1 : F).
Implicit Types (g : @BufferGeometry F) (gs : list (@BufferGeometry F)).

Lemma countTotals_with_positions gs (tv ti : nat) :
  Forall (fun g => position g <> None) gs ->
  exists t, countTotals gs tv ti = Normal t.
Proof.
  intros H. revert tv ti.
  induction H as [|g gs Hg _ IH]; intros tv ti; cbn [countTotals].
  - eexists; reflexivity.
  - destruct (position g); [|congruence]. cbn [deref bind]. apply IH.
Qed.

Lemma typedArray_set_no_TypeError {A : Type} (t src : list A) (o : nat) :
  typedArray_set t src o <> Throw TypeError.
Proof. unfold typedArray_set. case_decide; discriminate. Qed.

Lemma bind_no_TypeError {A B : Type} (c : completion A)
  (k : A -> completion B) :
  c <> Throw TypeError ->
  (forall a, k a <> Throw TypeError) ->
  bind c k <> Throw TypeError.
Proof.
  intros Hc Hk. destruct c as [a|e]; cbn [bind]; [apply Hk|].
  intros [= ->]. apply Hc. reflexivity.
Qed.

Lemma mergeOne_no_TypeError (st : MergeState) g :
  position g <> None -> mergeOne f1 st g <> Throw TypeError.
Proof.
  intros Hp. unfold mergeOne.
  destruct (position g) as [p|]; [clear Hp|congruence]. cbn [deref].
  apply bind_no_TypeError; [apply typedArray_set_no_TypeError|intros pa].
  apply bind_no_TypeError.
  { destruct (normal g); [apply typedArray_set_no_TypeError|discriminate]. }
  intros na. apply bind_no_TypeError.
  { destruct (uv g); [apply typedArray_set_no_TypeError|discriminate]. }
  intros ua. apply bind_no_TypeError.
  { destruct (index g); discriminate. }
  intros ia. discriminate.
Qed.

Lemma forOf_mergeOne_no_TypeError gs (st : MergeState) :
  Forall (fun g => position g <> None) gs ->
  forOf (mergeOne f1) gs st <> Throw TypeError.
Proof.
  intros H. revert st.
  induction H as [|g gs Hg _ IH]; intros st; cbn [forOf]; [discriminate|].
  apply bind_no_TypeError; [apply mergeOne_no_TypeError, Hg|apply IH].
Qed.

(** X4. The merge throws a [TypeError] exactly when some input has no
    position attribute; any other failure is a [RangeError] of a typed
    array copy. *)
Theorem merge_TypeError_iff_missing_position gs :
  mergeGeometries f0 f1 gs = Throw TypeError
  <-> Exists (fun g => position g = None) gs.
Proof.
  split.
  - intros Hthrow.
    destruct (decide (Exists (fun g => position g = None) gs))
      as [Hex|Hno]; [exact Hex|exfalso].
    assert (Hall : Forall (fun g => position g <> None) gs).
    { apply Forall_forall. intros g Hg Hp. apply Hno.
      apply Exists_exists. exists g. auto. }
    unfold mergeGeometries in Hthrow.
    destruct gs as [|g gs']; [discriminate|].
    destruct (countTotals_with_positions (g :: gs') 0 0 Hall) as [t Ht].
    rewrite Ht in Hthrow. cbn [bind] in Hthrow.
    revert Hthrow. apply bind_no_TypeError.
    + apply forOf_mergeOne_no_TypeError, Hall.
    + intros st. discriminate.
  - intros H. unfold mergeGeometries.
    destruct gs as [|g gs']; [inversion H|].
    rewrite countTotals_missing_position by assumption. reflexivity.
Qed.

(** X5. The buffer returned for the empty list is not an input the merge
    accepts: wherever it is placed in a later merge, that merge throws. *)
Theorem merge_of_empty_result_throws (pre post : list BufferGeometry) :
  exists e,
    mergeGeometries f0 f1 [] = Normal e
    /\ mergeGeometries f0 f1 (pre ++ e :: post) = Throw TypeError.
Proof.
  exists emptyGeometry. split; [reflexivity|].
  unfold mergeGeometries.
  destruct (pre ++ emptyGeometry :: post) as [|h t] eqn:E;
    [destruct pre; discriminate|].
  rewrite <- E. rewrite countTotals_missing_position; [reflexivity|].
  apply Exists_app. right. apply Exists_cons_hd. reflexivity.
Qed.

Lemma indicesOf_exact (vOff : nat) g :
  indicesInRange g ->
  (Z.of_nat (vOff + vertexCount g) <= 2 ^ 32)%Z ->
  indicesOf vOff g = map (fun x => (x + Z.of_nat vOff)%Z) (cornersOf g).
Proof.
  unfold indicesInRange, indices, indicesOf, cornersOf. intros Hr Hb.
  destruct (index g) as [ix|]; cbn [attrArray] in Hr.
  - apply map_ext_in. intros x Hx.
    rewrite List.Forall_forall in Hr. specialize (Hr x Hx).
    unfold shiftIndex. apply Z.mod_small. lia.
  - rewrite map_map. apply map_ext_in. intros k Hk.
    apply in_seq in Hk. unfold shiftIndex. apply Z.mod_small. lia.
Qed.

Lemma length_cornersOf g :
  meshBuffer g -> length (cornersOf g) = indexCountOf g.
Proof.
  unfold meshBuffer, cornersOf, indexCountOf.
  destruct (position g); [|tauto]. intros (_ & _ & _ & Hi).
  destruct (index g).
  - symmetry. apply Hi.
  - rewrite length_map, length_seq. reflexivity.
Qed.

(** X6. The merged buffer draws the triangles of its inputs.  As long as the
    vertices up to and including an input number at most 2^32, the index
    run of that input in the output is its own corner list with every
    entry raised by the number of vertices before it, and the three
    coordinates found at a raised index are those of the input's own
    vertex. *)
Theorem merge_keeps_triangles (pre post : list BufferGeometry) g :
  Forall meshBuffer (pre ++ g :: post) ->
  indicesInRange g ->
  (Z.of_nat (totalVertexCount pre + vertexCount g) <= 2 ^ 32)%Z ->
  exists m,
    mergeGeometries f0 f1 (pre ++ g :: post) = Normal m
    /\ subarray (indices m) (totalIndexCount pre) (indexCountOf g)
       = map (fun x => (x + Z.of_nat (totalVertexCount pre))%Z) (cornersOf g)
    /\ forall k : nat,
         k < vertexCount g ->
         subarray (positions m) ((totalVertexCount pre + k) * 3) 3
         = subarray (positions g) (k * 3) 3.
Proof.
  intros Hall Hr Hb. pose proof Hall as Hsplit.
  apply Forall_app in Hsplit as [Hpre Hrest].
  apply Forall_cons in Hrest as [Hg Hpost].
  exists (mergedBuffer f0 f1 (pre ++ g :: post)). split.
  { apply mergeGeometries_meshBuffers; [|assumption].
    destruct pre; discriminate. }
  unfold indices at 1, positions at 1, mergedBuffer.
  cbn [index position attrArray newBufferAttribute array].
  rewrite mergedIndices_app, flat_map_app. cbn [mergedIndices flat_map].
  split.
  - rewrite Nat.add_0_l, indicesOf_exact by assumption.
    rewrite <- (length_mergedIndices 0 pre Hpre).
    rewrite <- (length_cornersOf g Hg).
    rewrite <- (length_map (fun x => (x + Z.of_nat (totalVertexCount pre))%Z)
                  (cornersOf g)).
    apply MergeMore.subarray_middle.
  - intros k Hk.
    destruct (meshBuffer_position g Hg) as (p & _ & _ & Hl).
    replace ((totalVertexCount pre + k) * 3)
      with (length (flat_map positions pre) + k * 3)
      by (rewrite (length_merged_positions pre Hpre); lia).
    apply MergeMore.subarray_inside. lia.
Qed.

(** *** The antenna merge *)

Lemma typedArray_set_prefix {A : Type} (src : list A) (z : A) (r : nat) :
  typedArray_set (replicate (length src + r) z) src 0
  = Normal (src ++ replicate r z).
Proof. apply (typedArray_set_fill [] src z r). Qed.

Lemma typedArray_set_suffix {A : Type} (done src : list A) (z : A) :
  typedArray_set (done ++ replicate (length src) z) src (length done)
  = Normal (done ++ src).
Proof.
  pose proof (typedArray_set_fill done src z 0) as H.
  rewrite Nat.add_0_r in H. cbn [replicate] in H.
  rewrite app_nil_r in H. exact H.
Qed.

Lemma mergeAntennae_result g1 g2 (p1 p2 n1 n2 : BufferAttribute F) :
  position g1 = Some p1 -> position g2 = Some p2 ->
  normal g1 = Some n1 -> normal g2 = Some n2 ->
  exists m,
    mergeAntennae f0 g1 g2 = Normal m
    /\ positions m = array p1 ++ array p2
    /\ normals m = array n1 ++ array n2
    /\ uv m = None
    /\ index m = None.
Proof.
  intros Hp1 Hp2 Hn1 Hn2. unfold mergeAntennae.
  rewrite Hp1, Hp2, Hn1, Hn2. cbn [deref bind].
  rewrite typedArray_set_prefix. cbn [bind].
  rewrite typedArray_set_suffix. cbn [bind].
  rewrite typedArray_set_prefix. cbn [bind].
  rewrite typedArray_set_suffix. cbn [bind].
  eexists. split; [reflexivity|].
  repeat split.
Qed.

(** X7. Given two geometries that both have positions and normals, the
    antenna merge returns their position arrays and their normal arrays
    side by side, and nothing else: no texture coordinates and, whatever
    index buffers the inputs carry, no index. *)
Theorem mergeAntennae_arrays g1 g2 (p1 p2 n1 n2 : BufferAttribute F) :
  position g1 = Some p1 -> position g2 = Some p2 ->
  normal g1 = Some n1 -> normal g2 = Some n2 ->
  exists m,
    mergeAntennae f0 g1 g2 = Normal m
    /\ positions m = array p1 ++ array p2
    /\ normals m = array n1 ++ array n2
    /\ uv m = None
    /\ index m = None.
Proof. apply mergeAntennae_result. Qed.

(** X8. The antenna merge throws (a [TypeError]) exactly when one of the two
    inputs lacks its position or its normal attribute. *)
Theorem mergeAntennae_TypeError_iff g1 g2 :
  mergeAntennae f0 g1 g2 = Throw TypeError
  <-> position g1 = None \/ position g2 = None
      \/ normal g1 = None \/ normal g2 = None.
Proof.
  split.
  - intros Hthrow.
    destruct (position g1) as [p1|] eqn:Hp1; [|auto].
    destruct (position g2) as [p2|] eqn:Hp2; [|auto].
    destruct (normal g1) as [n1|] eqn:Hn1; [|auto].
    destruct (normal g2) as [n2|] eqn:Hn2; [|auto].
    destruct (mergeAntennae_result g1 g2 p1 p2 n1 n2 Hp1 Hp2 Hn1 Hn2)
      as (m & Hm & _).
    rewrite Hm in Hthrow. discriminate.
  - unfold mergeAntennae. intros H.
    destruct (position g1) as [p1|]; [|reflexivity]. cbn [deref bind].
    destruct (position g2) as [p2|]; [|reflexivity]. cbn [deref bind].
    rewrite typedArray_set_prefix. cbn [bind].
    rewrite typedArray_set_suffix. cbn [bind].
    destruct (normal g1) as [n1|]; [|reflexivity]. cbn [deref bind].
    destruct (normal g2) as [n2|]; [|reflexivity].
    destruct H as [H|[H|[H|H]]]; discriminate.
Qed.

(** X9. On mesh buffers with normals the antenna merge and [mergeGeometries]
    build the same vertices and normals; the antenna merge alone drops
    the triangles' index list. *)
Theorem mergeAntennae_agrees_with_merge g1 g2 :
  meshBuffer g1 -> meshBuffer g2 ->
  is_Some (normal g1) -> is_Some (normal g2) ->
  exists a m,
    mergeAntennae f0 g1 g2 = Normal a
    /\ mergeGeometries f0 f1 [g1; g2] = Normal m
    /\ positions a = positions m
    /\ normals a = normals m
    /\ vertexCount a = vertexCount m
    /\ indices a = []
    /\ length (indices m) = indexCountOf g1 + indexCountOf g2.
Proof.
  intros H1 H2 [n1 Hn1] [n2 Hn2].
  destruct (meshBuffer_position g1 H1) as (p1 & Hp1 & Hc1 & Hl1).
  destruct (meshBuffer_position g2 H2) as (p2 & Hp2 & Hc2 & Hl2).
  assert (Hall : Forall meshBuffer [g1; g2]) by (repeat constructor; done).
  unfold mergeAntennae.
  rewrite Hp1, Hp2, Hn1, Hn2. cbn [deref bind].
  rewrite typedArray_set_prefix. cbn [bind].
  rewrite typedArray_set_suffix. cbn [bind].
  rewrite typedArray_set_prefix. cbn [bind].
  rewrite typedArray_set_suffix. cbn [bind].
  eexists. exists (mergedBuffer f0 f1 [g1; g2]).
  split; [reflexivity|].
  split; [apply mergeGeometries_meshBuffers; [discriminate|assumption]|].
  unfold positions, normals, indices, vertexCount, mergedBuffer.
  cbn [position normal index attrArray newBufferAttribute array count
       replicate flat_map].
  unfold positions, normalsOf. rewrite Hp1, Hp2, Hn1, Hn2.
  cbn [attrArray]. rewrite !app_nil_r.
  split; [reflexivity|]. split; [reflexivity|]. split; [reflexivity|].
  split; [reflexivity|].
  rewrite (length_mergedIndices 0 [g1; g2] Hall).
  unfold totalIndexCount. cbn [sum_list_with]. lia.
Qed.

End Errors.

(** *** At the sample inputs *)

Import Examples.

Lemma merge_TypeError_iff_missing_position_witness :
  mergeGeometries 0%Z 1%Z [quad; bare] = Throw TypeError
  /\ Exists (fun g => position g = None) [quad; bare].
Proof.
  assert (H : Exists (fun g : @BufferGeometry Z => position g = None)
                [quad; bare])
    by (apply Exists_cons_tl, Exists_cons_hd; reflexivity).
  split; [|exact H].
  apply (proj2 (merge_TypeError_iff_missing_position 0%Z 1%Z [quad; bare])).
  exact H.
Defined.

Lemma merge_keeps_triangles_witness :
  exists m,
    mergeGeometries 0%Z 1%Z [triangle; quad] = Normal m
    /\ subarray (indices m) 3 6 = [3; 4; 5;  3; 5; 6]%Z
    /\ forall k : nat,
         k < 4 ->
         subarray (positions m) ((3 + k) * 3) 3
         = subarray (positions quad) (k * 3) 3.
Proof.
  apply (merge_keeps_triangles 0%Z 1%Z [triangle] [] quad).
  - mesh_buffers.
  - unfold indicesInRange; cbn.
    repeat (apply Forall_cons_2 || apply Forall_nil_2); lia.
  - vm_compute. discriminate.
Defined.

Lemma mergeAntennae_arrays_witness :
  exists m,
    mergeAntennae 0%Z triangle triangle = Normal m
    /\ positions m
       = [0; 0; 5;  1; 0; 5;  0; 1; 5;  0; 0; 5;  1; 0; 5;  0; 1; 5]%Z
    /\ normals m
       = [0; 0; 1;  0; 0; 1;  0; 0; 1;  0; 0; 1;  0; 0; 1;  0; 0; 1]%Z
    /\ uv m = None
    /\ index m = None.
Proof.
  apply (mergeAntennae_arrays 0%Z triangle triangle
           (newBufferAttribute [0; 0; 5;  1; 0; 5;  0; 1; 5]%Z 3)
           (newBufferAttribute [0; 0; 5;  1; 0; 5;  0; 1; 5]%Z 3)
           (newBufferAttribute [0; 0; 1;  0; 0; 1;  0; 0; 1]%Z 3)
           (newBufferAttribute [0; 0; 1;  0; 0; 1;  0; 0; 1]%Z 3));
    reflexivity.
Defined.

Lemma mergeAntennae_TypeError_iff_witness :
  mergeAntennae 0%Z triangle quad = Throw TypeError.
Proof.
  apply (proj2 (mergeAntennae_TypeError_iff 0%Z triangle quad)).
  right. right. right. reflexivity.
Defined.

Lemma mergeAntennae_agrees_with_merge_witness :
  exists a m,
    mergeAntennae 0%Z triangle triangle = Normal a
    /\ mergeGeometries 0%Z 1%Z [triangle; triangle] = Normal m
    /\ positions a = positions m
    /\ normals a = normals m
    /\ vertexCount a = vertexCount m
    /\ indices a = []
    /\ length (indices m) = 6.
Proof.
  apply (mergeAntennae_agrees_with_merge 0%Z 1%Z triangle triangle).
  - vm_compute; repeat split.
  - vm_compute; repeat split.
  - eexists; reflexivity.
  - eexists; reflexivity.
Defined.

End MergeErrors.

(** * Thorn frames for every tangent *)

Module StemMore.
Import Stem StemFacts.
Local Open Scope R_scope.

Lemma normalize_lengthSq (a : Vector3) :
  0 < lengthSq a -> lengthSq (normalize a) = 1.
Proof.
  intros Ha. unfold normalize.
  assert (Hl : 0 < length a) by (unfold length; apply sqrt_lt_R0, Ha).
  assert (Hll : length a * length a = lengthSq a).
  { unfold length. apply sqrt_sqrt. lra. }
  destruct (Req_dec_T (length a) 0) as [E|_]; [lra|].
  unfold divideScalar, multiplyScalar, lengthSq in *.
  destruct a as [ax ay az]. cbn [vx vy vz] in *.
  set (l := length (vec3 ax ay az)) in *.
  replace (ax * (1 / l) * (ax * (1 / l)) + ay * (1 / l) * (ay * (1 / l))
           + az * (1 / l) * (az * (1 / l)))
    with ((ax * ax + ay * ay + az * az) / (l * l)) by (field; lra).
  rewrite Hll. field. lra.
Qed.

Lemma normalize_null (a : Vector3) :
  lengthSq a = 0 -> lengthSq (normalize a) = 0.
Proof.
  intros Ha. unfold normalize, length. rewrite Ha, sqrt_0.
  destruct (Req_dec_T 0 0) as [_|E]; [|lra].
  unfold divideScalar, multiplyScalar, lengthSq in *.
  destruct a as [ax ay az]. cbn [vx vy vz] in *.
  assert (ax = 0 /\ ay = 0 /\ az = 0) as (-> & -> & ->) by (repeat split; nra).
  lra.
Qed.

Lemma dot_normalize_perp (a b : Vector3) :
  dot a b = 0 -> dot (normalize a) b = 0.
Proof.
  intros H. unfold normalize, divideScalar, multiplyScalar, dot in *.
  destruct a as [ax ay az], b as [bx b_y bz]. cbn [vx vy vz] in *.
  set (k := 1 / _).
  replace (ax * k * bx + ay * k * b_y + az * k * bz)
    with (k * (ax * bx + ay * b_y + az * bz)) by ring.
  rewrite H. ring.
Qed.

Lemma sampleTangent_lengthSq (rawTangent : Vector3) :
  lengthSq (sampleTangent rawTangent) = 1.
Proof.
  unfold sampleTangent.
  destruct (Rle_lt_or_eq_dec 0 (lengthSq rawTangent) (lengthSq_nonneg _))
    as [Hpos|Hnull].
  - rewrite (normalize_lengthSq _ Hpos).
    destruct (Rlt_dec 1 0.1) as [H|_]; [lra|].
    apply normalize_lengthSq, Hpos.
  - rewrite (normalize_null _ (eq_sym Hnull)).
    destruct (Rlt_dec 0 0.1) as [_|H]; [|lra].
    unfold lengthSq. cbn [vx vy vz]. ring.
Qed.

Lemma Rabs_square_gt (x b : R) : 0 <= b -> b < Rabs x -> b * b < x * x.
Proof.
  intros Hb H. unfold Rabs in H. destruct (Rcase_abs x); nra.
Qed.

Lemma Rabs_square_le (x b : R) : ~ b < Rabs x -> x * x <= b * b.
Proof.
  intros H. apply Rnot_lt_le in H.
  pose proof (Rabs_pos x). unfold Rabs in *. destruct (Rcase_abs x); nra.
Qed.

Lemma cross_with_up_lengthSq (tangent : Vector3) :
  lengthSq tangent = 1 ->
  0.19 <= lengthSq (crossVectors tangent (referenceUp tangent)).
Proof.
  intros Ht. unfold referenceUp.
  destruct tangent as [tx ty tz]. unfold lengthSq in *. cbn [vx vy vz] in *.
  destruct (Rlt_dec 0.9 (Rabs ty)) as [Hbig|Hsmall].
  - pose proof (Rabs_square_gt ty 0.9 ltac:(lra) Hbig).
    unfold crossVectors, secondaryAxis. cbn [vx vy vz]. nra.
  - pose proof (Rabs_square_le ty 0.9 Hsmall).
    unfold crossVectors, worldUp. cbn [vx vy vz]. nra.
Qed.

Lemma dot_cross_left (a b : Vector3) : dot (crossVectors a b) a = 0.
Proof. unfold dot, crossVectors. cbn [vx vy vz]. ring. Qed.

Lemma dot_cross_right (a b : Vector3) : dot (crossVectors a b) b = 0.
Proof. unfold dot, crossVectors. cbn [vx vy vz]. ring. Qed.

Lemma lengthSq_cross (a b : Vector3) :
  lengthSq (crossVectors a b)
  = lengthSq a * lengthSq b - dot a b * dot a b.
Proof. unfold lengthSq, dot, crossVectors. cbn [vx vy vz]. ring. Qed.

(** Turning about a unit axis keeps lengths and the component along the
    axis. *)
Lemma applyAxisAngle_lengthSq (v axis : Vector3) (angle : R) :
  lengthSq axis = 1 ->
  lengthSq (applyAxisAngle v axis angle) = lengthSq v.
Proof.
  intros Ha.
  pose proof (sin2_cos2 (angle / 2)) as Hsc. unfold Rsqr in Hsc.
  unfold applyAxisAngle, setFromAxisAngle, applyQuaternion, lengthSq in *.
  destruct v as [x y z], axis as [ax ay az]. cbn [vx vy vz qx qy qz qw] in *.
  set (s := sin (angle / 2)) in *. set (c := cos (angle / 2)) in *.
  match goal with
  | |- ?lhs = ?rhs =>
      replace lhs with
        (rhs + 4 * ((ay * s * z - az * s * y) * (ay * s * z - az * s * y)
                    + (az * s * x - ax * s * z) * (az * s * x - ax * s * z)
                    + (ax * s * y - ay * s * x) * (ax * s * y - ay * s * x))
               * ((ax * ax + ay * ay + az * az) * (s * s) + c * c - 1))
        by ring
  end.
  rewrite Ha. replace (1 * (s * s) + c * c - 1) with 0 by lra. ring.
Qed.

Lemma applyAxisAngle_dot_axis (v axis : Vector3) (angle : R) :
  dot (applyAxisAngle v axis angle) axis = dot v axis.
Proof.
  unfold applyAxisAngle, setFromAxisAngle, applyQuaternion, dot.
  cbn [vx vy vz qx qy qz qw]. ring.
Qed.

(** The radial direction of a thorn has length 1 and is perpendicular to
    the tangent. *)
Lemma thornNormal_unit_perp (tangent : Vector3) (angle : R) :
  lengthSq tangent = 1 ->
  lengthSq (thornNormal tangent angle) = 1
  /\ dot (thornNormal tangent angle) tangent = 0.
Proof.
  intros Ht. unfold thornNormal.
  pose proof (cross_with_up_lengthSq tangent Ht) as Hc.
  set (cr := crossVectors tangent (referenceUp tangent)) in *.
  assert (Hb1 : lengthSq (normalize cr) = 1)
    by (apply normalize_lengthSq; lra).
  assert (Hb2 : dot (normalize cr) tangent = 0)
    by (apply dot_normalize_perp, dot_cross_left).
  assert (Hr1 : lengthSq (applyAxisAngle (normalize cr) tangent angle) = 1)
    by (rewrite applyAxisAngle_lengthSq; assumption).
  rewrite (normalize_unit _ Hr1). split; [exact Hr1|].
  rewrite applyAxisAngle_dot_axis. exact Hb2.
Qed.

Lemma lengthSq_negate (a : Vector3) : lengthSq (negate a) = lengthSq a.
Proof. unfold lengthSq, negate. cbn [vx vy vz]. ring. Qed.

Lemma dot_negate_r (a b : Vector3) : dot a (negate b) = - dot a b.
Proof. unfold dot, negate. cbn [vx vy vz]. ring. Qed.

(** For a unit [n] perpendicular to a unit [t]:
    [(n x (-t)) x n = -t]. *)
Lemma double_cross (n t : Vector3) :
  lengthSq n = 1 -> dot n t = 0 ->
  crossVectors (crossVectors n (negate t)) n = negate t.
Proof.
  intros Hn Hd. unfold lengthSq, dot, crossVectors, negate in *.
  destruct n as [nx ny nz], t as [tx ty tz]. cbn [vx vy vz] in *.
  f_equal.
  - transitivity (- tx * (nx * nx + ny * ny + nz * nz)
                  + nx * (nx * tx + ny * ty + nz * tz));
      [ring|rewrite Hn, Hd; ring].
  - transitivity (- ty * (nx * nx + ny * ny + nz * nz)
                  + ny * (nx * tx + ny * ty + nz * tz));
      [ring|rewrite Hn, Hd; ring].
  - transitivity (- tz * (nx * nx + ny * ny + nz * nz)
                  + nz * (nx * tx + ny * ty + nz * tz));
      [ring|rewrite Hn, Hd; ring].
Qed.

Lemma thornFrame_of_unit_tangent (tangent : Vector3) (angle : R) :
  lengthSq tangent = 1 ->
  orthonormal (thornFrame tangent angle)
  /\ yAxis (thornFrame tangent angle) = thornNormal tangent angle
  /\ dot (yAxis (thornFrame tangent angle)) tangent = 0
  /\ zAxis (thornFrame tangent angle) = negate tangent.
Proof.
  intros Ht.
  destruct (thornNormal_unit_perp tangent angle Ht) as [Hn Hd].
  unfold thornFrame. set (n := thornNormal tangent angle) in *.
  assert (Hx1 : lengthSq (crossVectors n (negate tangent)) = 1).
  { rewrite lengthSq_cross, lengthSq_negate, dot_negate_r, Hn, Ht, Hd.
    ring. }
  rewrite (normalize_unit _ Hx1).
  rewrite (double_cross n tangent Hn Hd).
  assert (Hz1 : lengthSq (negate tangent) = 1)
    by (rewrite lengthSq_negate; exact Ht).
  rewrite (normalize_unit _ Hz1).
  cbn [xAxis yAxis zAxis]. split; [|auto].
  unfold orthonormal. cbn [xAxis yAxis zAxis].
  split; [apply dot_cross_left|].
  split; [rewrite dot_negate_r, Hd; ring|].
  split; [apply dot_cross_right|].
  split; [apply length_of_unit, Hx1|].
  split; apply length_of_unit; assumption.
Qed.

(** X14. A thorn is seated 0.045 away from the point of the curve it belongs
    to, in a direction perpendicular to the tangent: just inside the
    surface of the stem, whose radius is 0.05. *)
Theorem thornPos_on_stem_surface (point tangent : Vector3) (angle : R) :
  lengthSq tangent = 1 ->
  exists offset : Vector3,
    thornPos point tangent angle = add point offset
    /\ lengthSq offset = 0.045 * 0.045
    /\ dot offset tangent = 0
    /\ length offset < stemRadius.
Proof.
  intros Ht.
  destruct (thornNormal_unit_perp tangent angle Ht) as [Hn Hd].
  exists (multiplyScalar (thornNormal tangent angle) (stemRadius - 0.005)).
  split; [reflexivity|].
  set (n := thornNormal tangent angle) in *. clearbody n.
  replace (stemRadius - 0.005) with 0.045 by (unfold stemRadius; lra).
  assert (Hsq : lengthSq (multiplyScalar n 0.045) = 0.045 * 0.045).
  { transitivity (lengthSq n * (0.045 * 0.045));
      [|rewrite Hn; ring].
    unfold lengthSq, multiplyScalar. cbn [vx vy vz]. ring. }
  split; [exact Hsq|]. split.
  - transitivity (dot n tangent * 0.045); [|rewrite Hd; ring].
    unfold dot, multiplyScalar. cbn [vx vy vz]. ring.
  - unfold length. rewrite Hsq, sqrt_square by lra. unfold stemRadius. lra.
Qed.

(** X15. With [Math.random()] in [0, 1) the clamp of the thorn parameter is
    never active, and the thorns follow each other along the stem: the
    parameter of thorn [i + 1] is larger than that of thorn [i] by more
    than 0.0015, whatever the two jitters. *)
Theorem thornParameter_ordered (i : nat) (r r' : R) :
  (i < thornCount)%nat ->
  0 <= r < 1 -> 0 <= r' < 1 ->
  thornParameter i (jitterOf r)
  = 0.15 + (INR i / 20) * 0.83 + jitterOf r
  /\ ((S i < thornCount)%nat ->
      thornParameter i (jitterOf r) + 0.0015
      < thornParameter (S i) (jitterOf r')).
Proof.
  unfold thornCount. intros Hi Hr Hr'.
  assert (Hi' : 0 <= INR i <= 19).
  { split; [apply pos_INR|].
    replace 19 with (INR 19) by (simpl; lra). apply le_INR. lia. }
  assert (Hunclamped : forall (k : nat) (q : R),
            0 <= INR k <= 19 -> 0 <= q < 1 ->
            thornParameter k (jitterOf q)
            = 0.15 + (INR k / 20) * 0.83 + jitterOf q).
  { intros k q Hk Hq. unfold thornParameter, jitterOf, thornCount.
    replace (INR 20) with 20 by (simpl; lra).
    rewrite Rmin_right by lra. rewrite Rmax_right by lra. reflexivity. }
  rewrite (Hunclamped i r) by lra.
  split; [reflexivity|]. intros HS.
  assert (HS' : INR (S i) <= 19).
  { replace 19 with (INR 19) by (simpl; lra). apply le_INR. lia. }
  rewrite S_INR in HS'.
  rewrite (Hunclamped (S i) r') by (try rewrite S_INR; lra).
  rewrite S_INR. unfold jitterOf. lra.
Qed.

(** X10. Whatever the curve returns as its tangent, the sampled tangent has
    length 1: a non-zero raw tangent is normalised, a zero one is replaced
    by the downward axis. *)
Theorem sampleTangent_unit (rawTangent : Vector3) :
  lengthSq (sampleTangent rawTangent) = 1
  /\ (lengthSq rawTangent = 0 -> sampleTangent rawTangent = vec3 0 (-1) 0)
  /\ (0 < lengthSq rawTangent ->
      sampleTangent rawTangent = normalize rawTangent).
Proof.
  split; [apply sampleTangent_lengthSq|]. split.
  - intros Hnull. unfold sampleTangent.
    rewrite (normalize_null _ Hnull).
    destruct (Rlt_dec 0 0.1) as [_|H]; [reflexivity|lra].
  - intros Hpos. unfold sampleTangent.
    rewrite (normalize_lengthSq _ Hpos).
    destruct (Rlt_dec 1 0.1) as [H|_]; [lra|reflexivity].
Qed.

(** X11. The choice of the reference up vector keeps the cross product away
    from zero: for a unit tangent its squared length is at least 0.19, so
    that the binormal has length 1 and is perpendicular to the tangent. *)
Theorem referenceUp_cross_nondegenerate (tangent : Vector3) :
  lengthSq tangent = 1 ->
  0.19 <= lengthSq (crossVectors tangent (referenceUp tangent))
  /\ lengthSq (normalize (crossVectors tangent (referenceUp tangent))) = 1
  /\ dot (normalize (crossVectors tangent (referenceUp tangent))) tangent
     = 0.
Proof.
  intros Ht. pose proof (cross_with_up_lengthSq tangent Ht) as Hc.
  split; [exact Hc|]. split.
  - apply normalize_lengthSq. lra.
  - apply dot_normalize_perp, dot_cross_left.
Qed.

(** X12. For every unit tangent and every spiral angle the thorn basis is
    orthonormal; its y axis is the radial direction, perpendicular to the
    tangent, and its z axis is the reversed tangent. *)
Theorem thornFrame_orthonormal (tangent : Vector3) (angle : R) :
  lengthSq tangent = 1 ->
  orthonormal (thornFrame tangent angle)
  /\ yAxis (thornFrame tangent angle) = thornNormal tangent angle
  /\ dot (yAxis (thornFrame tangent angle)) tangent = 0
  /\ zAxis (thornFrame tangent angle) = negate tangent.
Proof. apply thornFrame_of_unit_tangent. Qed.

(** X13. In the thorn loop every thorn gets an orthonormal basis, whatever
    tangent the curve returns (the zero vector included) and whatever the
    spiral angle. *)
Theorem thorn_loop_frame_orthonormal (rawTangent : Vector3) (angle : R) :
  orthonormal (thornFrame (sampleTangent rawTangent) angle).
Proof.
  apply thornFrame_of_unit_tangent, sampleTangent_lengthSq.
Qed.


Lemma sampleTangent_unit_witness :
  sampleTangent (vec3 0 0 0) = vec3 0 (-1) 0
  /\ sampleTangent (vec3 0 2 0) = normalize (vec3 0 2 0).
Proof.
  split.
  - apply (proj1 (proj2 (sampleTangent_unit (vec3 0 0 0)))).
    unfold lengthSq. cbn [vx vy vz]. lra.
  - apply (proj2 (proj2 (sampleTangent_unit (vec3 0 2 0)))).
    unfold lengthSq. cbn [vx vy vz]. lra.
Defined.

Lemma referenceUp_cross_nondegenerate_witness :
  0.19 <= lengthSq (crossVectors (vec3 (3 / 5) 0 (4 / 5))
                      (referenceUp (vec3 (3 / 5) 0 (4 / 5)))).
Proof.
  apply (proj1 (referenceUp_cross_nondegenerate (vec3 (3 / 5) 0 (4 / 5))
                  ltac:(unfold lengthSq; cbn [vx vy vz]; lra))).
Defined.

Lemma thornFrame_orthonormal_witness :
  orthonormal (thornFrame (vec3 (3 / 5) 0 (4 / 5)) 2.5)
  /\ zAxis (thornFrame (vec3 (3 / 5) 0 (4 / 5)) 2.5)
     = negate (vec3 (3 / 5) 0 (4 / 5)).
Proof.
  destruct (thornFrame_orthonormal (vec3 (3 / 5) 0 (4 / 5)) 2.5)
    as (Ho & _ & _ & Hz).
  - unfold lengthSq. cbn [vx vy vz]. lra.
  - split; [exact Ho|exact Hz].
Defined.

Lemma thornPos_on_stem_surface_witness :
  exists offset : Vector3,
    thornPos (vec3 0 1 0) (vec3 (3 / 5) 0 (4 / 5)) 2.5
    = add (vec3 0 1 0) offset
    /\ lengthSq offset = 0.045 * 0.045
    /\ dot offset (vec3 (3 / 5) 0 (4 / 5)) = 0
    /\ Stem.length offset < stemRadius.
Proof.
  apply (thornPos_on_stem_surface (vec3 0 1 0) (vec3 (3 / 5) 0 (4 / 5)) 2.5).
  unfold lengthSq. cbn [vx vy vz]. lra.
Defined.

Lemma thornParameter_ordered_witness :
  thornParameter 3 (jitterOf 0.99) + 0.0015
  < thornParameter 4 (jitterOf 0).
Proof.
  destruct (thornParameter_ordered 3 0.99 0) as [_ H].
  - unfold thornCount. lia.
  - lra.
  - lra.
  - apply H. unfold thornCount. lia.
Defined.

End StemMore.

(** * Properties of the thorn cone and of the sepals *)

Module OrganFacts.
Import Stem Petal PetalFacts.
Local Open Scope R_scope.

(** X16. Bending the thorn keeps every height, squeezes x by 0.8 and moves z
    backwards by an amount that grows with the height from 0 at the base
    to 0.12 at the tip. *)
Theorem thornVertex_bend (vertex : Vector3) :
  0 <= vy vertex <= ThornGeometry.height ->
  vy (ThornGeometry.thornVertex vertex) = vy vertex
  /\ vx (ThornGeometry.thornVertex vertex) = 0.8 * vx vertex
  /\ vz vertex - 0.12 <= vz (ThornGeometry.thornVertex vertex) <= vz vertex
  /\ (vy vertex = 0 -> vz (ThornGeometry.thornVertex vertex) = vz vertex)
  /\ (vy vertex = ThornGeometry.height ->
      vz (ThornGeometry.thornVertex vertex) = vz vertex - 0.12)
  /\ (forall other : Vector3,
        vy vertex <= vy other <= ThornGeometry.height ->
        vz other - vz (ThornGeometry.thornVertex other)
        >= vz vertex - vz (ThornGeometry.thornVertex vertex)).
Proof.
  unfold ThornGeometry.thornVertex, ThornGeometry.height.
  destruct vertex as [x y z]. cbn [vx vy vz]. intros Hy.
  set (h := y / 0.35).
  assert (Hh : 0 <= h <= 1) by (unfold h; split; lra).
  split; [reflexivity|]. split; [ring|].
  split; [simpl; split; nra|].
  split; [intros ->; unfold h; simpl; lra|].
  split; [intros ->; unfold h; simpl; lra|].
  intros [ox oy oz]. cbn [vx vy vz]. intros Ho.
  assert (Hle : h <= oy / 0.35) by (unfold h; lra).
  simpl. nra.
Qed.

Lemma Math_pow_0 (y : R) : Math_pow 0 y = 0.
Proof. unfold Math_pow. destruct (Rle_dec 0 0); [reflexivity|lra]. Qed.

(** X17. Shaping a sepal keeps x and y; for a vertex of the outline
    (0 <= y <= length, |x| <= width) it only raises z, by at most 0.27,
    and it leaves the middle of the base where it is. *)
Theorem sepalVertex_lift (vertex : Vector3) :
  0 <= vy vertex <= Sepal.length ->
  Rabs (vx vertex) <= Sepal.width ->
  vx (Sepal.sepalVertex vertex) = vx vertex
  /\ vy (Sepal.sepalVertex vertex) = vy vertex
  /\ vz vertex <= vz (Sepal.sepalVertex vertex) <= vz vertex + 0.27
  /\ (vx vertex = 0 -> vy vertex = 0 ->
      vz (Sepal.sepalVertex vertex) = vz vertex).
Proof.
  unfold Sepal.sepalVertex, Sepal.length, Sepal.width.
  destruct vertex as [x y z]. cbn [vx vy vz]. intros Hy Hx.
  split; [reflexivity|]. split; [reflexivity|].
  pose proof PI_RGT_0 as Hpi.
  assert (Hs : 0 <= sin (y / 1.1 * PI * 0.8) <= 1).
  { split; [|apply SIN_bound].
    assert (0 <= y / 1.1 <= 1) by (split; lra).
    apply sin_ge_0; nra. }
  assert (Hr : 0 <= Rabs (x / 0.5) <= 1).
  { split; [apply Rabs_pos|].
    unfold Rabs in *. destruct (Rcase_abs x), (Rcase_abs (x / 0.5)); lra. }
  pose proof (Math_pow_nonneg (Rabs (x / 0.5)) 2.2) as Hp0.
  pose proof (Math_pow_le_1 (Rabs (x / 0.5)) 2.2 ltac:(lra) ltac:(lra))
    as Hp1.
  split; [split; lra|].
  intros -> ->.
  replace (0 / 1.1 * PI * 0.8) with 0 by lra.
  replace (0 / 0.5) with 0 by lra.
  rewrite sin_0, Rabs_R0, Math_pow_0. ring.
Qed.

Lemma sepalOrientation_components (i : nat) :
  Sepal.sepalOrientation i
  = quat (cos (Sepal.sepalAngle i / 2) * sin (Sepal.tilt / 2))
         (sin (Sepal.sepalAngle i / 2) * cos (Sepal.tilt / 2))
         (- (sin (Sepal.sepalAngle i / 2) * sin (Sepal.tilt / 2)))
         (cos (Sepal.sepalAngle i / 2) * cos (Sepal.tilt / 2)).
Proof.
  unfold Sepal.sepalOrientation, Sepal.multiplyQuaternions,
    Sepal.identityQuaternion, setFromAxisAngle.
  cbn [qx qy qz qw vx vy vz]. f_equal; ring.
Qed.

(** X18. The six sepals sit on a circle of radius 0.07 at height 1.35, 60
    degrees apart.  The orientation of each is a unit quaternion that
    turns the sepal's own length axis (0,1,0) to the direction
    (sin tilt sin angle, cos tilt, sin tilt cos angle): every sepal leans
    by the same tilt, outwards along the radius of its own seat. *)
Theorem sepal_placement (i : nat) :
  vx (Sepal.sepalAttach i) * vx (Sepal.sepalAttach i)
  + vz (Sepal.sepalAttach i) * vz (Sepal.sepalAttach i)
  = Sepal.attachRadius * Sepal.attachRadius
  /\ vy (Sepal.sepalAttach i) = 1.35
  /\ Sepal.sepalAngle (S i) - Sepal.sepalAngle i = PI / 3
  /\ Sepal.quaternionLengthSq (Sepal.sepalOrientation i) = 1
  /\ applyQuaternion (vec3 0 1 0) (Sepal.sepalOrientation i)
     = vec3 (sin Sepal.tilt * sin (Sepal.sepalAngle i))
            (cos Sepal.tilt)
            (sin Sepal.tilt * cos (Sepal.sepalAngle i)).
Proof.
  rewrite sepalOrientation_components.
  set (a := Sepal.sepalAngle i).
  pose proof (sin2_cos2 a) as Ha. unfold Rsqr in Ha.
  pose proof (sin2_cos2 (a / 2)) as Hh. unfold Rsqr in Hh.
  pose proof (sin2_cos2 (Sepal.tilt / 2)) as Ht. unfold Rsqr in Ht.
  split.
  { unfold Sepal.sepalAttach. fold a. cbn [vx vz].
    transitivity ((sin a * sin a + cos a * cos a)
                  * (Sepal.attachRadius * Sepal.attachRadius));
      [ring|rewrite Ha; ring]. }
  split; [reflexivity|]. split.
  { unfold a, Sepal.sepalAngle, Sepal.count. rewrite S_INR.
    replace (INR 6) with 6 by (simpl; lra). field. }
  set (sa := sin (a / 2)) in *. set (ca := cos (a / 2)) in *.
  set (st := sin (Sepal.tilt / 2)) in *.
  set (ct := cos (Sepal.tilt / 2)) in *.
  split.
  { unfold Sepal.quaternionLengthSq. cbn [qx qy qz qw].
    transitivity ((sa * sa + ca * ca) * (st * st + ct * ct));
      [ring|rewrite Hh, Ht; ring]. }
  assert (Hsin_a : sin a = 2 * sa * ca).
  { replace a with (2 * (a / 2)) at 1 by field. apply sin_2a. }
  assert (Hcos_a : cos a = ca * ca - sa * sa).
  { replace a with (2 * (a / 2)) at 1 by field. apply cos_2a. }
  assert (Hsin_t : sin Sepal.tilt = 2 * st * ct).
  { replace Sepal.tilt with (2 * (Sepal.tilt / 2)) at 1 by field.
    apply sin_2a. }
  assert (Hcos_t : cos Sepal.tilt = 1 - 2 * st * st).
  { replace Sepal.tilt with (2 * (Sepal.tilt / 2)) at 1 by field.
    apply cos_2a_sin. }
  rewrite Hsin_a, Hcos_a, Hsin_t, Hcos_t.
  unfold applyQuaternion. cbn [qx qy qz qw vx vy vz].
  f_equal; [ring| |ring].
  transitivity (1 - 2 * st * st * (sa * sa + ca * ca));
    [ring|rewrite Hh; ring].
Qed.


Lemma thornVertex_bend_witness :
  vz (ThornGeometry.thornVertex (vec3 0.08 0.35 0)) = 0 - 0.12
  /\ vx (ThornGeometry.thornVertex (vec3 0.08 0.35 0)) = 0.8 * 0.08.
Proof.
  destruct (thornVertex_bend (vec3 0.08 0.35 0))
    as (_ & Hx & _ & _ & Htip & _).
  - cbn [vy]. unfold ThornGeometry.height. lra.
  - split; [apply Htip; reflexivity|exact Hx].
Defined.

Lemma sepalVertex_lift_witness :
  0 <= vz (Sepal.sepalVertex (vec3 0.25 0.55 0)) <= 0 + 0.27.
Proof.
  destruct (sepalVertex_lift (vec3 0.25 0.55 0)) as (_ & _ & H & _).
  - cbn [vy]. unfold Sepal.length. lra.
  - cbn [vx]. unfold Sepal.width. rewrite Rabs_pos_eq; lra.
  - exact H.
Defined.

End OrganFacts.

(** * Properties of the petal schedule, the leaf blade and the shards *)

Module ScheduleFacts.
Import FlowerHead Petal PetalFacts.
Local Open Scope R_scope.

(** X19. From the heart of the flower outwards the petals never come closer to
    the axis and never get smaller: radius and scale of the schedule do
    not decrease with the petal index, and for the 22 petals the radius
    stays between 0.05 and 0.5, the scale between 0.35 and 0.95. *)
Theorem petalConfig_monotone (i j : nat) :
  (i <= j)%nat ->
  radius (petalConfig i) <= radius (petalConfig j)
  /\ scale (petalConfig i) <= scale (petalConfig j)
  /\ ((j < totalPetals)%nat ->
      0.05 <= radius (petalConfig j) < 0.5
      /\ 0.35 <= scale (petalConfig j) <= 0.95).
Proof.
  intros Hij. unfold petalConfig, totalPetals.
  pose proof (pos_INR i) as Hi0. pose proof (pos_INR j) as Hj0.
  destruct (Nat.ltb_spec i 5) as [Hi5|Hi5];
    [|destruct (Nat.ltb_spec i 10) as [Hi10|Hi10];
      [|destruct (Nat.ltb_spec i 16) as [Hi16|Hi16]]];
  (destruct (Nat.ltb_spec j 5) as [Hj5|Hj5];
    [|destruct (Nat.ltb_spec j 10) as [Hj10|Hj10];
      [|destruct (Nat.ltb_spec j 16) as [Hj16|Hj16]]]);
  try (exfalso; lia);
  cbn [radius scale];
  (split; [|split; [|intros Hj22]]);
  tier_bounds; try lra; split; lra.
Qed.

(** X20. Every petal is seated at the distance [radius] of its tier from the
    axis of the flower, at the azimuth of its golden-angle position. *)
Theorem petalPlacement_on_circle (i : nat) :
  x (petalPlacement i) * x (petalPlacement i)
  + z (petalPlacement i) * z (petalPlacement i)
  = radius (petalConfig i) * radius (petalConfig i)
  /\ config (petalPlacement i) = petalConfig i
  /\ rotY (petalPlacement i) + theta (petalPlacement i) = - (PI / 2).
Proof.
  unfold petalPlacement. cbn [x z config rotY theta].
  set (t := INR i * goldenAngle). set (r := radius (petalConfig i)).
  pose proof (sin2_cos2 t) as H. unfold Rsqr in H.
  split; [|split; [reflexivity|ring]].
  transitivity ((sin t * sin t + cos t * cos t) * (r * r));
    [ring|rewrite H; ring].
Qed.

Lemma petal_longitudinal_range (vertex_y : R) :
  0 <= Petal.longitudinal vertex_y <= 1.
Proof.
  unfold Petal.longitudinal. split; [apply Rmax_l|].
  apply Rmax_lub; [lra|apply Rmin_l].
Qed.

(** X21. The petal is never wider than 1.5 times the primitive it is cut
    from, and at its base (and below) it is pinched to the axis. *)
Theorem petal_lateral_bounded (vertex_x vertex_y : R) :
  Rabs (lateral vertex_x vertex_y) <= 1.5 * Rabs vertex_x
  /\ (vertex_y <= -0.5 -> lateral vertex_x vertex_y = 0).
Proof.
  unfold lateral.
  destruct (petal_longitudinal_range vertex_y) as [H0 H1].
  pose proof (shapeWidth_nonneg _ H0) as Hw0.
  pose proof (shapeWidth_le_1 _ H0) as Hw1.
  split.
  - rewrite Rabs_mult.
    rewrite (Rabs_pos_eq (Petal.shapeWidth _ * 1.5)) by lra.
    pose proof (Rabs_pos vertex_x). nra.
  - intros Hy. unfold Petal.longitudinal.
    rewrite Rmin_right by lra. rewrite Rmax_left by lra.
    rewrite shapeWidth_at_0. ring.
Qed.


Lemma petalConfig_monotone_witness :
  radius (petalConfig 0) <= radius (petalConfig 20)
  /\ scale (petalConfig 0) <= scale (petalConfig 20)
  /\ 0.05 <= radius (petalConfig 20) < 0.5.
Proof.
  destruct (petalConfig_monotone 0 20) as (Hr & Hs & Hb); [lia|].
  split; [exact Hr|]. split; [exact Hs|].
  apply Hb. unfold totalPetals. lia.
Defined.

Lemma petal_lateral_bounded_witness :
  lateral (1 / 4) (-0.5) = 0.
Proof.
  apply (proj2 (petal_lateral_bounded (1 / 4) (-0.5))). lra.
Defined.

End ScheduleFacts.

Module LeafFacts.
Import Stem Petal PetalFacts.
Local Open Scope R_scope.

Lemma longitudinal_range (vertex_y : R) :
  0 <= Leaf.longitudinal vertex_y <= 1.
Proof.
  unfold Leaf.longitudinal. split; [apply Rmax_l|].
  apply Rmax_lub; [lra|apply Rmin_l].
Qed.

Lemma Math_pow_unit (x y : R) :
  0 <= y -> 0 <= x <= 1 -> 0 <= Math_pow x y <= 1.
Proof.
  intros Hy Hx. split; [apply Math_pow_nonneg|].
  apply Math_pow_le_1; lra.
Qed.

Lemma shapeWidth_range (v : R) :
  0 <= v <= 1 -> 0 <= Leaf.shapeWidth v <= 1.
Proof.
  intros Hv. unfold Leaf.shapeWidth.
  pose proof PI_RGT_0 as Hpi.
  destruct (Math_pow_unit v 0.75 ltac:(lra) Hv) as [Hm0 Hm1].
  assert (Hs : 0 <= sin (Math_pow v 0.75 * PI) <= 1).
  { split; [apply sin_ge_0; nra|apply SIN_bound]. }
  destruct (Rlt_dec 0.7 v) as [Htaper|_]; [|exact Hs].
  assert (0 <= 1.0 - (v - 0.7) / 0.3 <= 1) by (split; lra).
  split; nra.
Qed.

Lemma serration_range (v : R) :
  0 <= v <= 1 ->
  0 <= Math_pow (frac_part (v * 16)) 0.8 * (0.04 * sin (v * PI)) <= 0.04.
Proof.
  intros Hv. pose proof PI_RGT_0 as Hpi.
  destruct (base_fp (v * 16)) as [Hf0 Hf1].
  destruct (Math_pow_unit (frac_part (v * 16)) 0.8 ltac:(lra) ltac:(lra))
    as [Hp0 Hp1].
  assert (Hs : 0 <= sin (v * PI) <= 1).
  { split; [apply sin_ge_0; nra|apply SIN_bound]. }
  split; nra.
Qed.

Lemma halfWidth_outline :
  (forall v : R, 0 <= v <= 1 -> 0 <= Leaf.halfWidth v <= 0.44)
  /\ Leaf.halfWidth 0 = 0
  /\ Leaf.halfWidth 1 = 0.
Proof.
  split; [|split].
  - intros v Hv. unfold Leaf.halfWidth, Leaf.targetMaxWidth.
    pose proof (shapeWidth_range v Hv).
    pose proof (serration_range v Hv). lra.
  - unfold Leaf.halfWidth, Leaf.shapeWidth.
    destruct (Rlt_dec 0.7 0) as [H|_]; [lra|].
    rewrite OrganFacts.Math_pow_0.
    replace (0 * PI) with 0 by ring. rewrite sin_0. ring.
  - unfold Leaf.halfWidth, Leaf.shapeWidth.
    destruct (Rlt_dec 0.7 1) as [_|H]; [|lra].
    replace (1 * PI) with PI by ring. rewrite sin_PI. lra.
Qed.

(** X23. The outline of the leaf: on [0, 1] the half width lies between 0 and
    0.44, and it is 0 at both ends, so that the blade closes to a point
    at its base and at its tip. *)
Theorem leaf_halfWidth_outline :
  (forall v : R, 0 <= v <= 1 -> 0 <= Leaf.halfWidth v <= 0.44)
  /\ Leaf.halfWidth 0 = 0
  /\ Leaf.halfWidth 1 = 0.
Proof. exact halfWidth_outline. Qed.

(** X24. The leaf is laid out along y from 0 to its length 1.4, whatever the
    primitive: the height is clamped.  A vertex at or below the lower face
    of the primitive lands at y = 0 and one at or above the upper face at
    y = 1.4, both on the midline x = 0; everywhere the blade is at most
    0.88 times as wide as the primitive. *)
Theorem leafVertex_extent (vertex : Vector3) :
  0 <= vy (Leaf.leafVertex vertex) <= Leaf.length
  /\ Rabs (vx (Leaf.leafVertex vertex)) <= 0.88 * Rabs (vx vertex)
  /\ (vy vertex <= -0.5 ->
      vy (Leaf.leafVertex vertex) = 0 /\ vx (Leaf.leafVertex vertex) = 0)
  /\ (0.5 <= vy vertex ->
      vy (Leaf.leafVertex vertex) = Leaf.length
      /\ vx (Leaf.leafVertex vertex) = 0).
Proof.
  destruct halfWidth_outline as (Hrange & Hbase & Htip).
  unfold Leaf.leafVertex. cbn [vx vy vz].
  destruct (longitudinal_range (vy vertex)) as [H0 H1].
  pose proof (Hrange _ (conj H0 H1)) as Hw.
  split; [unfold Leaf.length; split; nra|]. split.
  - rewrite Rabs_mult.
    rewrite (Rabs_pos_eq (Leaf.halfWidth _ * 2.0)) by lra.
    pose proof (Rabs_pos (vx vertex)). nra.
  - split; intros Hy; unfold Leaf.longitudinal.
    + rewrite Rmin_right by lra. rewrite Rmax_left by lra.
      rewrite Hbase. split; ring.
    + rewrite Rmin_left by lra. rewrite Rmax_right by lra.
      rewrite Htip. split; ring.
Qed.

(** X25. The division that measures the distance from the midrib is guarded:
    where the half width exceeds 0.001 the ratio is twice the distance of
    the vertex from the middle of the primitive (so it lies in [0, 1] for
    a primitive of width 1), elsewhere it is 0; and for a ratio in [0, 1]
    the thickness lies between the edge thickness 0.002 and the midrib
    thickness 0.05. *)
Theorem leaf_distRatio_thickness (vertex_x hw : R) :
  Rabs vertex_x <= 1 / 2 ->
  Leaf.distRatio (vertex_x * (hw * 2.0)) hw
  = (if Rlt_dec 0.001 hw then 2 * Rabs vertex_x else 0)
  /\ 0 <= Leaf.distRatio (vertex_x * (hw * 2.0)) hw <= 1
  /\ Leaf.edgeThickness
     <= Leaf.currentThickness (Leaf.distRatio (vertex_x * (hw * 2.0)) hw)
     <= Leaf.midribThickness.
Proof.
  intros Hx. pose proof (Rabs_pos vertex_x) as Hx0.
  assert (E : Leaf.distRatio (vertex_x * (hw * 2.0)) hw
              = (if Rlt_dec 0.001 hw then 2 * Rabs vertex_x else 0)).
  { unfold Leaf.distRatio. destruct (Rlt_dec 0.001 hw) as [Hhw|_];
      [|reflexivity].
    rewrite Rabs_mult, (Rabs_pos_eq (hw * 2.0)) by lra.
    replace 2.0 with 2 by lra. field. lra. }
  assert (Hd : 0 <= Leaf.distRatio (vertex_x * (hw * 2.0)) hw <= 1).
  { rewrite E. destruct (Rlt_dec 0.001 hw); lra. }
  split; [exact E|]. split; [exact Hd|].
  unfold Leaf.currentThickness, Leaf.edgeThickness, Leaf.midribThickness.
  destruct (Math_pow_unit _ 2.5 ltac:(lra) Hd) as [Hp0 Hp1]. split; lra.
Qed.


Lemma leaf_halfWidth_outline_witness :
  0 <= Leaf.halfWidth (1 / 2) <= 0.44.
Proof.
  apply (proj1 leaf_halfWidth_outline). lra.
Defined.

Lemma leafVertex_extent_witness :
  vy (Leaf.leafVertex (vec3 (1 / 4) (1 / 2) (1 / 2))) = Leaf.length
  /\ vx (Leaf.leafVertex (vec3 (1 / 4) (1 / 2) (1 / 2))) = 0.
Proof.
  destruct (leafVertex_extent (vec3 (1 / 4) (1 / 2) (1 / 2)))
    as (_ & _ & _ & Htip).
  apply Htip. cbn [vy]. lra.
Defined.

Lemma leaf_distRatio_thickness_witness :
  Leaf.distRatio (1 / 4 * (0.3 * 2.0)) 0.3
  = (if Rlt_dec 0.001 0.3 then 2 * Rabs (1 / 4) else 0).
Proof.
  apply (leaf_distRatio_thickness (1 / 4) 0.3).
  rewrite Rabs_pos_eq; lra.
Defined.

End LeafFacts.

Module ShardFieldFacts.
Import Stem ShardField.
Local Open Scope R_scope.

(** X26. The shards are scattered in a shell around the flower: a shard lies
    at the distance 3 + 4 u3 from the origin, between 3 and 7 when the
    random number u3 is in [0, 1), and its height is spread evenly: z is
    that distance times 2 u2 - 1. *)
Theorem shardPos_in_shell (u1 u2 u3 : R) :
  0 <= u2 <= 1 -> 0 <= u3 < 1 ->
  lengthSq (shardPos u1 u2 u3) = (3 + u3 * 4) * (3 + u3 * 4)
  /\ 3 <= Stem.length (shardPos u1 u2 u3) < 7
  /\ vz (shardPos u1 u2 u3) = (3 + u3 * 4) * (2 * u2 - 1).
Proof.
  intros Hu2 Hu3. unfold shardPos.
  set (theta := u1 * PI * 2). set (phi := acos (2 * u2 - 1)).
  set (r := 3 + u3 * 4).
  pose proof (sin2_cos2 theta) as Ht. unfold Rsqr in Ht.
  pose proof (sin2_cos2 phi) as Hp. unfold Rsqr in Hp.
  assert (Hsq : lengthSq (vec3 (r * sin phi * cos theta)
                            (r * sin phi * sin theta) (r * cos phi))
                = r * r).
  { unfold lengthSq. cbn [vx vy vz].
    transitivity (r * r * (sin phi * sin phi
                           * (sin theta * sin theta + cos theta * cos theta)
                           + cos phi * cos phi));
      [ring|rewrite Ht, Rmult_1_r, Hp; ring]. }
  split; [exact Hsq|]. split.
  - unfold Stem.length. rewrite Hsq, sqrt_square by (unfold r; lra).
    unfold r. lra.
  - cbn [vz]. unfold phi. rewrite cos_acos by lra. reflexivity.
Qed.

(** X27. A shard pulses within a tenth of its scale and floats within 0.2 of
    its starting height. *)
Theorem shard_motion_bounded (scale floatSpeed floatOffset initialY t : R) :
  0 <= scale ->
  0.9 * scale <= shardScale scale floatOffset t <= 1.1 * scale
  /\ initialY - 0.2 <= shardY initialY floatSpeed floatOffset t
     <= initialY + 0.2.
Proof.
  intros Hs. unfold shardScale, shardY.
  pose proof (SIN_bound (t * 2 + floatOffset)).
  pose proof (SIN_bound (t * floatSpeed + floatOffset)).
  split; split; nra.
Qed.

(** X28. The wings flap between -0.5 and 1.0: [mapLinear] maps the sine from
    [-1, 1] onto that interval, ends onto ends. *)
Theorem flapAngle_range (time : R) :
  -0.5 <= flapAngle time <= 1.0
  /\ mapLinear (-1) (-1) 1 (-0.5) 1.0 = -0.5
  /\ mapLinear 1 (-1) 1 (-0.5) 1.0 = 1.0
  /\ flapAngle time = 0.25 + 0.75 * sin (time * 15).
Proof.
  unfold flapAngle, mapLinear.
  pose proof (SIN_bound (time * 15)).
  repeat split; lra.
Qed.


Lemma shardPos_in_shell_witness :
  3 <= Stem.length (shardPos 0 (1 / 2) (1 / 2)) < 7.
Proof.
  destruct (shardPos_in_shell 0 (1 / 2) (1 / 2)) as (_ & H & _);
    [lra|lra|exact H].
Defined.

Lemma shard_motion_bounded_witness :
  0.9 * 0.1 <= shardScale 0.1 0 0 <= 1.1 * 0.1.
Proof.
  destruct (shard_motion_bounded 0.1 1 0 0 0) as [H _]; [lra|exact H].
Defined.

End ShardFieldFacts.

Module PetalGeometryFacts.
Import Stem Petal PetalFacts PetalGeometry.
Local Open Scope R_scope.

Lemma Math_pow_cube_half (x : R) :
  0 <= x <= 1 / 2 -> 0 <= Math_pow x 3 <= 0.125.
Proof.
  intros Hx. split; [apply Math_pow_nonneg|].
  unfold Math_pow. destruct (Rle_dec x 0) as [_|Hpos]; [lra|].
  replace 3 with (INR 3) by (simpl; lra).
  rewrite Rpower_pow by lra. simpl.
  assert (0 < x) by lra. nra.
Qed.

Lemma wave_amplitude (v e : R) :
  0 <= v <= 1 -> 0 <= e <= 1 ->
  0 <= 0.08 * v * Math_pow (Rmax 0 e) 1.5 <= 0.08 * v.
Proof.
  intros Hv He. rewrite Rmax_right by lra.
  pose proof (Math_pow_nonneg e 1.5).
  pose proof (Math_pow_le_1 e 1.5 ltac:(lra) ltac:(lra)).
  split; nra.
Qed.

(** X22. The petal keeps the height of the primitive, raised by 0.5, up to a
    ripple of at most 0.012 and, for the outer petals (index 12 and more),
    a droop of the edges of at most 0.0625.  The lower face of the
    primitive is not rippled: for an inner petal it lands exactly on the
    height 0 where the petal is attached, pinched to x = 0.  The x
    coordinate is the one the width envelope gives. *)
Theorem petalVertex_height (index : nat) (vertex : Vector3) :
  Rabs (vx vertex) <= 1 / 2 ->
  vx (petalVertex index vertex) = lateral (vx vertex) (vy vertex)
  /\ vy vertex + 0.5 - 0.012 - 0.0625 <= vy (petalVertex index vertex)
     <= vy vertex + 0.5 + 0.012
  /\ ((index < 12)%nat ->
      vy vertex + 0.5 - 0.012 <= vy (petalVertex index vertex))
  /\ ((index < 12)%nat -> vy vertex = -0.5 ->
      vy (petalVertex index vertex) = 0
      /\ vx (petalVertex index vertex) = 0).
Proof.
  intros Hx. unfold petalVertex. cbn [vx vy vz].
  destruct vertex as [x y z]. cbn [vx vy vz] in *.
  replace (x + 0.5 - 0.5) with x by ring.
  set (seed := INR index * 13.5).
  set (wf := 2.0 + INR (index mod 3)).
  destruct (ScheduleFacts.petal_longitudinal_range y) as [Hv0 Hv1].
  set (v := Petal.longitudinal y) in *.
  assert (He : 0 <= Rabs x * 2 <= 1) by (pose proof (Rabs_pos x); lra).
  destruct (wave_amplitude v (Rabs x * 2) (conj Hv0 Hv1) He) as [Ha0 Ha1].
  set (amp := 0.08 * v * Math_pow (Rmax 0 (Rabs x * 2)) 1.5) in *.
  pose proof (COS_bound ((x + 0.5) * PI * wf + seed)) as Hc.
  set (c := cos ((x + 0.5) * PI * wf + seed)) in *.
  assert (Hw : - 0.012 <= c * amp * 0.15 <= 0.012) by (split; nra).
  assert (Hd : 0 <= Math_pow (Rmax 0 (Rabs x)) 3 * 0.5 <= 0.0625).
  { rewrite Rmax_right by apply Rabs_pos.
    pose proof (Math_pow_cube_half (Rabs x)
                  (conj (Rabs_pos x) Hx)). lra. }
  split; [reflexivity|].
  destruct (Nat.ltb_spec index 6) as [H6|H6];
    [|destruct (Nat.ltb_spec index 12) as [H12|H12]];
    cbn [fst snd].
  - split; [lra|]. split; [intros _; lra|].
    intros _ ->. unfold amp, v, Petal.longitudinal.
    replace (-0.5 + 0.5) with 0 by lra.
    rewrite Rmin_right by lra. rewrite Rmax_left by lra.
    rewrite shapeWidth_at_0. split; nra.
  - split; [lra|]. split; [intros _; lra|].
    intros _ ->. unfold amp, v, Petal.longitudinal.
    replace (-0.5 + 0.5) with 0 by lra.
    rewrite Rmin_right by lra. rewrite Rmax_left by lra.
    rewrite shapeWidth_at_0. split; nra.
  - split; [lra|]. split; intros Hlt; exfalso; lia.
Qed.

Lemma petalVertex_height_witness :
  vy (petalVertex 3 (vec3 (1 / 4) (-0.5) 0)) = 0
  /\ vx (petalVertex 3 (vec3 (1 / 4) (-0.5) 0)) = 0.
Proof.
  destruct (petalVertex_height 3 (vec3 (1 / 4) (-0.5) 0))
    as (_ & _ & _ & Hbase).
  - cbn [vx]. rewrite Rabs_pos_eq; lra.
  - apply Hbase; [lia|reflexivity].
Defined.

End PetalGeometryFacts.
